(** * Verification model of the miao control panel (src/src/main.rs)

    A shallow embedding of the parts of the control panel that the
    specification talks about: version comparison for self-upgrade, the
    sing-box config synthesis ([gen_config], [fetch_sub]), the process
    supervisor ([start_sing_internal], [stop_sing_internal]) with its HTTP
    handlers, and the first steps of [upgrade].

    The environment (network answers, process behaviour, I/O failures) is
    passed in explicitly as records of outcomes, so every function below is
    executable. *)

From Stdlib Require Import String Ascii ZArith NArith List Bool Lia.
From stdpp Require Import base gmap sets strings list.

Open Scope string_scope.
Set Warnings "-register-all".

(* ========================================================================= *)
(** ** Version parsing ([parse_version], [is_newer_version]) *)
(* ========================================================================= *)

Module Version.

(** [v.strip_prefix('v').unwrap_or(v)] *)
Definition strip_prefix_v (s : string) : string :=
  match s with
  | String c r => if Ascii.eqb c "v"%char then r else s
  | EmptyString => s
  end.

(** [s.split('.')] as Rust computes it: the empty string gives a single empty piece, and
    every separator produces a (possibly empty) piece on each side. *)
Fixpoint split_dot (s : string) : list string :=
  match s with
  | EmptyString => [EmptyString]
  | String c r =>
      let parts := split_dot r in
      if Ascii.eqb c "."%char then EmptyString :: parts
      else match parts with
           | p :: ps => String c p :: ps
           | [] => [String c EmptyString]
           end
  end.

Definition digit_val (c : ascii) : option N :=
  let n := N_of_ascii c in
  if (48 <=? n)%N && (n <=? 57)%N then Some (n - 48)%N else None.

(** Decimal accumulation of [u32::from_str_radix(_, 10)]. *)
Fixpoint digits_value (acc : N) (s : string) : option N :=
  match s with
  | EmptyString => Some acc
  | String c r =>
      match digit_val c with
      | Some d => digits_value (acc * 10 + d)%N r
      | None => None
      end
  end.

Definition u32_max : N := 4294967295%N.

(** [<u32 as FromStr>::from_str]: empty input is an error, a single leading
    ['+'] is accepted (but not on its own), then decimal digits only, and the
    value must fit in 32 bits.  The accumulator only grows, so checking the
    bound at the end agrees with Rust's checked arithmetic at every step. *)
Definition parse_u32 (s : string) : option N :=
  let digits :=
    match s with
    | EmptyString => None
    | String c r =>
        if Ascii.eqb c "+"%char then
          match r with EmptyString => None | _ => Some r end
        else Some s
    end in
  match digits with
  | None => None
  | Some ds =>
      match digits_value 0 ds with
      | Some n => if (n <=? u32_max)%N then Some n else None
      | None => None
      end
  end.

Definition parse_version (v : string) : option (N * N * N) :=
  let v := strip_prefix_v v in
  match split_dot v with
  | [a; b; c] =>
      match parse_u32 a, parse_u32 b, parse_u32 c with
      | Some x, Some y, Some z => Some (x, y, z)
      | _, _, _ => None
      end
  | _ => None
  end.

(** Rust's derived [>] on [(u32, u32, u32)]: lexicographic. *)
Definition tuple_gt (l c : N * N * N) : bool :=
  let '(l1, l2, l3) := l in
  let '(c1, c2, c3) := c in
  (c1 <? l1)%N
  || ((c1 =? l1)%N && ((c2 <? l2)%N || ((c2 =? l2)%N && (c3 <? l3)%N))).

Definition is_newer_version (current latest : string) : bool :=
  match parse_version current, parse_version latest with
  | Some c, Some l => tuple_gt l c
  | _, _ => false
  end.

(** Reading of the spec's words: an optional ['v'] and then exactly three
    non-empty runs of ASCII digits separated by dots. *)
Definition is_digit (c : ascii) : bool :=
  match digit_val c with Some _ => true | None => false end.

Fixpoint take_digits (s : string) : nat * string :=
  match s with
  | String c r =>
      if is_digit c then let '(n, rest) := take_digits r in (S n, rest)
      else (0, s)
  | EmptyString => (0, EmptyString)
  end.

Definition digit_run_then (sep : option ascii) (s : string) : option string :=
  let '(n, rest) := take_digits s in
  if Nat.eqb n 0 then None
  else match sep, rest with
       | None, EmptyString => Some EmptyString
       | Some d, String c r => if Ascii.eqb c d then Some r else None
       | _, _ => None
       end.

Definition three_digit_runs (s : string) : bool :=
  match digit_run_then (Some "."%char) s with
  | Some r1 =>
      match digit_run_then (Some "."%char) r1 with
      | Some r2 => match digit_run_then None r2 with Some _ => true | None => false end
      | None => false
      end
  | None => false
  end.

Definition spec_version_wellformed (s : string) : bool :=
  three_digit_runs s
  || match s with
     | String c r => Ascii.eqb c "v"%char && three_digit_runs r
     | EmptyString => false
     end.

(** The component grammar the code accepts: an optional ['+'] then a
    non-empty digit string whose value fits in a [u32]. *)
Definition u32_lexeme (x : string) (n : N) : Prop :=
  exists ds, (x = ds \/ x = String "+"%char ds) /\ ds <> EmptyString /\
             digits_value 0 ds = Some n /\ (n <= u32_max)%N.

(** A version string the code accepts, with its components. *)
Definition version_shape (s : string) (t : N * N * N) : Prop :=
  let '(a, b, c) := t in
  exists x y z, split_dot (strip_prefix_v s) = [x; y; z] /\
                u32_lexeme x a /\ u32_lexeme y b /\ u32_lexeme z c.

End Version.

(* ========================================================================= *)
(** ** JSON and YAML values ([serde_json::Value], [serde_yaml::Value]) *)
(* ========================================================================= *)

Module Json.

Inductive json : Type :=
| JNull
| JBool (b : bool)
| JNum (n : Z)
| JStr (s : string)
| JArr (xs : list json)
| JObj (fields : list (string * json)).

Fixpoint assoc_get {A} (k : string) (l : list (string * A)) : option A :=
  match l with
  | [] => None
  | (k', v) :: r => if String.eqb k k' then Some v else assoc_get k r
  end.

(** [Value::get(key)]: only objects answer a string key. *)
(** [Option::and_then] *)
Definition and_then {A B} (o : option A) (f : A -> option B) : option B :=
  match o with Some a => f a | None => None end.

Definition get (k : string) (v : json) : option json :=
  match v with JObj fs => assoc_get k fs | _ => None end.

Definition as_str (v : json) : option string :=
  match v with JStr s => Some s | _ => None end.

(** [value[k] = f(value[k])] on an object that has field [k]. *)
Fixpoint assoc_modify (k : string) (f : json -> json)
    (l : list (string * json)) : list (string * json) :=
  match l with
  | [] => []
  | (k', v) :: r =>
      if String.eqb k k' then (k', f v) :: r else (k', v) :: assoc_modify k f r
  end.

Definition modify_field (k : string) (f : json -> json) (v : json) : json :=
  match v with JObj fs => JObj (assoc_modify k f fs) | _ => v end.

(** [as_array_mut()] followed by [extend]: a no-op on non-arrays. *)
Definition extend_array (ys : list json) (v : json) : json :=
  match v with JArr xs => JArr (xs ++ ys) | _ => v end.

Definition modify_head (f : json -> json) (v : json) : json :=
  match v with JArr (x :: xs) => JArr (f x :: xs) | _ => v end.

Inductive yaml : Type :=
| YNull
| YBool (b : bool)
| YNum (n : Z)
| YStr (s : string)
| YSeq (xs : list yaml)
| YMap (fields : list (string * yaml)).

Definition yget (k : string) (v : yaml) : option yaml :=
  match v with YMap fs => assoc_get k fs | _ => None end.

Definition yas_str (v : yaml) : option string :=
  match v with YStr s => Some s | _ => None end.

Definition yas_bool (v : yaml) : option bool :=
  match v with YBool b => Some b | _ => None end.

(** [as_u64]: non-negative integers that fit in 64 bits. *)
Definition yas_u64 (v : yaml) : option Z :=
  match v with
  | YNum n => if (0 <=? n)%Z && (n <? 2 ^ 64)%Z then Some n else None
  | _ => None
  end.

End Json.

Import Json.

(* ========================================================================= *)
(** ** Subscription fetch and outbound translation ([fetch_sub]) *)
(* ========================================================================= *)

Module Sub.

Definition str_field (k : string) (node : yaml) : string :=
  match and_then (yget k node) yas_str with Some s => s | None => EmptyString end.

(** [node.get("port").and_then(|p| p.as_u64()).unwrap_or(0) as u16]: the cast
    keeps the low 16 bits. *)
Definition port_field (node : yaml) : Z :=
  match and_then (yget "port" node) yas_u64 with
  | Some p => Z.modulo p 65536
  | None => 0%Z
  end.

(** [Tls] serialised: [server_name] is skipped when [None]. *)
Definition tls_json (server_name : option string) (insecure : bool) : json :=
  JObj ([("enabled", JBool true)]
        ++ match server_name with Some s => [("server_name", JStr s)] | None => [] end
        ++ [("insecure", JBool insecure)]).

Definition hysteria2_json (node : yaml) (name : string) : json :=
  JObj [("type", JStr "hysteria2"); ("tag", JStr name);
        ("server", JStr (str_field "server" node));
        ("server_port", JNum (port_field node));
        ("password", JStr (str_field "password" node));
        ("up_mbps", JNum 40); ("down_mbps", JNum 350);
        ("tls", tls_json (and_then (yget "sni" node) yas_str) true)].

Definition anytls_json (node : yaml) (name : string) : json :=
  JObj [("type", JStr "anytls"); ("tag", JStr name);
        ("server", JStr (str_field "server" node));
        ("server_port", JNum (port_field node));
        ("password", JStr (str_field "password" node));
        ("tls", tls_json (and_then (yget "sni" node) yas_str)
                  (match and_then (yget "skip-cert-verify" node) yas_bool with
                   | Some b => b | None => false end))].

Definition shadowsocks_json (node : yaml) (name : string) : json :=
  JObj [("type", JStr "shadowsocks"); ("tag", JStr name);
        ("server", JStr (str_field "server" node));
        ("server_port", JNum (port_field node));
        ("method", JStr (str_field "cipher" node));
        ("password", JStr (str_field "password" node))].

(** One iteration of the [for node in nodes] loop: the tag pushed to
    [node_names] and the outbound pushed to [outbounds], or nothing for the
    [_ => {}] arm. *)
Definition translate (node : yaml) : option (string * json) :=
  let typ := str_field "type" node in
  let name := str_field "name" node in
  if String.eqb typ "hysteria2" then Some (name, hysteria2_json node name)
  else if String.eqb typ "anytls" then Some (name, anytls_json node name)
  else if String.eqb typ "ss" then Some (name, shadowsocks_json node name)
  else None.

Fixpoint translate_all (nodes : list yaml) : list string * list json :=
  match nodes with
  | [] => ([], [])
  | n :: rest =>
      let '(names, obs) := translate_all rest in
      match translate n with
      | Some (nm, ob) => (nm :: names, ob :: obs)
      | None => (names, obs)
      end
  end.

Definition proxies_of (doc : yaml) : list yaml :=
  match yget "proxies" doc with Some (YSeq xs) => xs | _ => [] end.

(** [fetch_sub link]: [resp] is what the HTTP GET, [text()] and
    [serde_yaml::from_str] produced for [link] (an error message on any
    failure of those steps). *)
Definition fetch_sub (resp : string + yaml) : string + (list string * list json) :=
  match resp with
  | inl e => inl e
  | inr doc => inr (translate_all (proxies_of doc))
  end.

(** Reading of the spec's words: a fetch keeps only names containing one of
    the region markers. *)
Definition contains (m s : string) : Prop := exists p q, s = p ++ m ++ q.

Definition filters_by_markers (markers : list string) : Prop :=
  forall resp names obs,
    fetch_sub resp = inr (names, obs) ->
    Forall (fun n => exists m, In m markers /\ contains m n) names.

End Sub.

(* ========================================================================= *)
(** ** Config synthesis ([gen_config]) *)
(* ========================================================================= *)

Module Gen.

(** The persisted [Config] (the port is irrelevant here). *)
Record Config := mkConfig {
  port : option N;
  subs : list string;
  nodes : list string;
}.

Record SubStatus := mkSubStatus {
  st_url : string;
  st_success : bool;
  st_node_count : nat;
  st_error : option string;
}.

(** The file system, path to contents. *)
Abbreviation Fs := (gmap string string).

(** What the outside world answers during one [gen_config] run:
    - [parse_node]: [serde_json::from_str] on a stored manual node;
    - [fetch_response]: HTTP GET, body read and YAML parse for a URL;
    - [serialize]: [serde_json::to_string] of the final document;
    - [write_cut]: [None] when [tokio::fs::write] completes, [Some k] when
      it stops (I/O error, or the process is killed) after [k] bytes. *)
Record GenEnv := mkGenEnv {
  parse_node : string -> option json;
  fetch_response : string -> string + yaml;
  serialize : json -> string;
  write_cut : option nat;
}.

Inductive GenError :=
| NoNodesAvailable
| WriteFailed.

Definition sing_box_home : string := "/tmp/miao-sing-box".
Definition config_path : string := sing_box_home ++ "/config.json".

(** [get_config_template()] *)
Definition get_config_template : json :=
  JObj [
    ("log", JObj [("disabled", JBool false); ("timestamp", JBool true);
                  ("level", JStr "info")]);
    ("experimental", JObj [("clash_api", JObj [
        ("external_controller", JStr "0.0.0.0:6262");
        ("access_control_allow_origin", JArr [JStr "*"])])]);
    ("dns", JObj [
        ("final", JStr "googledns"); ("strategy", JStr "ipv4_only");
        ("disable_cache", JBool false); ("independent_cache", JBool true);
        ("servers", JArr [
           JObj [("type", JStr "udp"); ("tag", JStr "googledns");
                 ("server", JStr "8.8.8.8"); ("detour", JStr "proxy")];
           JObj [("tag", JStr "local"); ("type", JStr "udp");
                 ("server", JStr "223.5.5.5")]]);
        ("rules", JArr [JObj [("rule_set", JArr [JStr "chinasite"]);
                              ("action", JStr "route"); ("server", JStr "local")]])]);
    ("inbounds", JArr [
        JObj [("type", JStr "tun"); ("tag", JStr "tun-in");
              ("interface_name", JStr "sing-tun");
              ("address", JArr [JStr "172.18.0.1/30"]); ("mtu", JNum 9000);
              ("auto_route", JBool true); ("strict_route", JBool true);
              ("auto_redirect", JBool true)]]);
    ("outbounds", JArr [
        JObj [("type", JStr "selector"); ("tag", JStr "proxy"); ("outbounds", JArr [])];
        JObj [("type", JStr "direct"); ("tag", JStr "direct")]]);
    ("route", JObj [
        ("final", JStr "proxy"); ("auto_detect_interface", JBool true);
        ("default_domain_resolver", JStr "local");
        ("rules", JArr [
           JObj [("action", JStr "sniff")];
           JObj [("protocol", JStr "dns"); ("action", JStr "hijack-dns")];
           JObj [("ip_is_private", JBool true);
                 ("rule_set", JArr [JStr "chinaip"; JStr "chinasite"]);
                 ("action", JStr "route"); ("outbound", JStr "direct")]]);
        ("rule_set", JArr [
           JObj [("type", JStr "local"); ("tag", JStr "chinasite");
                 ("format", JStr "binary"); ("path", JStr "./chinasite.srs")];
           JObj [("type", JStr "local"); ("tag", JStr "chinaip");
                 ("format", JStr "binary"); ("path", JStr "./chinaip.srs")]])])].

(** [my_outbounds]: the stored nodes that parse as JSON. *)
Definition my_outbounds (env : GenEnv) (cfg : Config) : list json :=
  omap (parse_node env) (nodes cfg).

(** [my_names]: the string [tag] of each of them, when it has one. *)
Definition my_names (env : GenEnv) (cfg : Config) : list string :=
  omap (fun o => and_then (get "tag" o) as_str) (my_outbounds env cfg).

(** The [for sub in &config.subs] loop: accumulated names, outbounds and the
    status map after each [SUB_STATUS.insert]. *)
Fixpoint fetch_all (env : GenEnv) (urls : list string)
    (names : list string) (obs : list json) (st : gmap string SubStatus)
    : list string * list json * gmap string SubStatus :=
  match urls with
  | [] => (names, obs, st)
  | sub :: rest =>
      match Sub.fetch_sub (fetch_response env sub) with
      | inr (nn, oo) =>
          let count := length nn in
          fetch_all env rest (names ++ nn) (obs ++ oo)
            (<[sub := mkSubStatus sub (negb (Nat.eqb count 0)) count
                        (if Nat.eqb count 0 then Some "No nodes found" else None)]> st)
      | inl e =>
          fetch_all env rest names obs (<[sub := mkSubStatus sub false 0 (Some e)]> st)
      end
  end.

Definition fetched_names (env : GenEnv) (cfg : Config) : list string :=
  fst (fst (fetch_all env (subs cfg) [] [] ∅)).

Definition fetched_outbounds (env : GenEnv) (cfg : Config) : list json :=
  snd (fst (fetch_all env (subs cfg) [] [] ∅)).

(** Lines building [sing_box_config]: the selector's [outbounds] gets the
    tags, the top-level [outbounds] gets the outbound objects. *)
Definition build_config (names : list string) (obs : list json) : json :=
  modify_field "outbounds" (extend_array obs)
    (modify_field "outbounds"
       (modify_head (modify_field "outbounds" (extend_array (map JStr names))))
       get_config_template).

(** [std::fs::write]/[tokio::fs::write]: create (truncating) then write the
    bytes in place; stopping after [k] bytes leaves the first [k] bytes. *)
Definition fs_write (cut : option nat) (p content : string) (fs : Fs) : bool * Fs :=
  match cut with
  | None => (true, <[p := content]> fs)
  | Some k => (false, <[p := substring 0 k content]> fs)
  end.

Record GenOut := mkGenOut {
  gen_result : GenError + unit;
  gen_status : gmap string SubStatus;
  gen_fs : Fs;
}.

(** [gen_config(config)], with the file system and [SUB_STATUS] threaded
    through explicitly. *)
Definition gen_config (env : GenEnv) (cfg : Config)
    (st : gmap string SubStatus) (fs : Fs) : GenOut :=
  let mo := my_outbounds env cfg in
  let mn := my_names env cfg in
  let st0 := filter (fun kv => kv.1 ∈ subs cfg) st in
  let '(fnames, fobs, st1) := fetch_all env (subs cfg) [] [] st0 in
  let total := length mo + length fobs in
  if Nat.eqb total 0 then mkGenOut (inl NoNodesAvailable) st1 fs
  else
    let doc := build_config (mn ++ fnames) (mo ++ fobs) in
    let '(ok, fs') := fs_write (write_cut env) config_path (serialize env doc) fs in
    mkGenOut (if ok then inr tt else inl WriteFailed) st1 fs'.

(** [sing_box_config["outbounds"][0]["outbounds"]] of a document. *)
Definition selector_members (doc : json) : option (list json) :=
  match get "outbounds" doc with
  | Some (JArr (sel :: _)) =>
      match get "outbounds" sel with Some (JArr xs) => Some xs | _ => None end
  | _ => None
  end.

(** The same run with a different outcome of the final write. *)
Definition with_cut (env : GenEnv) (cut : option nat) : GenEnv :=
  mkGenEnv (parse_node env) (fetch_response env) (serialize env) cut.

(** Reading of the spec's words: wherever the synthesis run is interrupted
    during its write, [config.json] is either as it was before or the
    complete new file. *)
Definition atomic_config_write (env : GenEnv) (cfg : Config)
    (st : gmap string SubStatus) (fs : Fs) : Prop :=
  forall k,
    let cut := gen_fs (gen_config (with_cut env (Some k)) cfg st fs) in
    let full := gen_fs (gen_config (with_cut env None) cfg st fs) in
    cut !! config_path = fs !! config_path \/
    cut !! config_path = full !! config_path.

End Gen.

(* ========================================================================= *)
(** ** Process supervisor ([SING_PROCESS], [start_sing_internal],
       [stop_sing_internal], [start_service], [stop_service]) *)
(* ========================================================================= *)

Module Sup.

(** Observable process events, in order. *)
Inductive event :=
| ESpawn (pid : nat)
| ESigterm (pid : nat)
| ESigkill (pid : nat)
| EExit (pid : nat).

(** [handle] is the content of [SING_PROCESS] (the pid of the stored
    [SingBoxProcess]); [running] are the sing-box processes alive at the OS
    level; [next_pid] is the pid the next spawn gets. *)
Record World := mkWorld {
  handle : option nat;
  running : gset nat;
  next_pid : nat;
  trace : list event;
}.

Definition alive (p : nat) (w : World) : bool := bool_decide (p ∈ running w).

Definition set_handle (h : option nat) (w : World) : World :=
  mkWorld h (running w) (next_pid w) (trace w).

(** The process [p] exits (observed, reaped). *)
Definition exit_proc (p : nat) (w : World) : World :=
  mkWorld (handle w) (running w ∖ {[p]}) (next_pid w) (trace w ++ [EExit p]).

Definition log (e : event) (w : World) : World :=
  mkWorld (handle w) (running w) (next_pid w) (trace w ++ [e]).

(** How the child reacts to SIGTERM: [Some i] when it has exited by the
    [i]-th 100ms poll, [None] when it never does (including when the signal
    could not be delivered). *)
Record StopEnv := mkStopEnv { sigterm_exit_poll : option nat }.

(** [for _ in 0..30 { sleep(100ms); if exited { break } }] *)
Fixpoint poll_exit (fuel i : nat) (exit_at : option nat) : bool :=
  match fuel with
  | 0 => false
  | S f =>
      if match exit_at with Some j => Nat.leb j i | None => false end then true
      else poll_exit f (S i) exit_at
  end.

(** [stop_sing_internal()]: SIGTERM, up to 3s of polling, then
    [start_kill] and [wait] if the child is still there; the handle is
    cleared in every case. *)
Definition stop_sing_internal (senv : StopEnv) (w : World) : World :=
  match handle w with
  | Some p =>
      if alive p w then
        let w1 := log (ESigterm p) w in
        if poll_exit 30 0 (sigterm_exit_poll senv) then set_handle None (exit_proc p w1)
        else set_handle None (exit_proc p (log (ESigkill p) w1))
      else set_handle None w
  | None => set_handle None w
  end.

Inductive StartError :=
| AlreadyRunning
| SpawnFailed
| ImmediateExit (code : Z)
| ClientBuildFailed
| ConnectivityCheckFailed.

(** What the outside world does during one [start_sing_internal] call. *)
Record StartEnv := mkStartEnv {
  spawn_ok : bool;                 (* [Command::spawn] succeeds *)
  immediate_exit : option Z;       (* exit code if gone after 500ms *)
  client_ok : bool;                (* [reqwest::Client::builder().build()] *)
  probe : nat -> bool;             (* attempt k gets HTTP 204 *)
  teardown : StopEnv;              (* the child's reaction to the stop *)
}.

(** The part of [start_sing_internal] run under the [SING_PROCESS] lock:
    already-running check, spawn, 500ms settle check, store. *)
Definition start_locked (env : StartEnv) (w : World) : (StartError + unit) * World :=
  let go :=
    if negb (spawn_ok env) then (inl SpawnFailed, w)
    else
      let p := next_pid w in
      let w1 := mkWorld (handle w) ({[p]} ∪ running w) (S p) (trace w ++ [ESpawn p]) in
      match immediate_exit env with
      | Some code => (inl (ImmediateExit code), exit_proc p w1)
      | None => (inr tt, set_handle (Some p) w1)
      end in
  match handle w with
  | Some p => if alive p w then (inl AlreadyRunning, w) else go
  | None => go
  end.

(** [for attempt in 1..=3 { ... break on 204 ... }] *)
Fixpoint probe_loop (fuel attempt : nat) (probe : nat -> bool) : bool :=
  match fuel with
  | 0 => false
  | S f => if probe attempt then true else probe_loop f (S attempt) probe
  end.

Definition connectivity_ok (env : StartEnv) : bool := probe_loop 3 1 (probe env).

(** [start_sing_internal()]: the locked part, then (lock released) the 5s
    wait, the probe, and [stop_sing_internal] if the probe never passed. *)
Definition start_sing_internal (env : StartEnv) (w : World) : (StartError + unit) * World :=
  match start_locked env w with
  | (inl e, w1) => (inl e, w1)
  | (inr _, w1) =>
      if negb (client_ok env) then (inl ClientBuildFailed, w1)
      else if connectivity_ok env then (inr tt, w1)
      else (inl ConnectivityCheckFailed, stop_sing_internal (teardown env) w1)
  end.

(** HTTP answers: status code and [ApiResponse] fields. *)
Record Response := mkResponse {
  status : N;
  success : bool;
  message : string;
}.

(** [start_service]: its own already-running check, then
    [start_sing_internal]. *)
Definition start_service (env : StartEnv) (w : World) : Response * World :=
  let go :=
    match start_sing_internal env w with
    | (inr _, w') => (mkResponse 200 true "sing-box started successfully", w')
    | (inl _, w') => (mkResponse 500 false "Failed to start", w')
    end in
  match handle w with
  | Some p =>
      if alive p w then (mkResponse 400 false "sing-box is already running", w)
      else go
  | None => go
  end.

Definition stop_service (senv : StopEnv) (w : World) : Response * World :=
  (mkResponse 200 true "sing-box stopped", stop_sing_internal senv w).

(** At most one sing-box process is alive, and it is the stored one. *)
Definition single_instance (w : World) : Prop :=
  forall q, q ∈ running w -> handle w = Some q.

Definition initial_world : World := mkWorld None ∅ 100 [].

End Sup.

(* ========================================================================= *)
(** ** Self-upgrade ([upgrade]) *)
(* ========================================================================= *)

Module Upgrade.

Import Gen.

Record Release := mkRelease {
  tag_name : string;
  assets : list (string * string);  (* (name, browser_download_url) *)
}.

(** What the outside world does during one [upgrade] call. *)
Record UpEnv := mkUpEnv {
  pkg_version : string;              (* [env!("CARGO_PKG_VERSION")] *)
  release : string + Release;        (* GET latest release and parse it *)
  arch_asset : option string;        (* [None] on an unsupported target *)
  download : string -> string + string;
  tmp_write_cut : option nat;        (* outcome of [fs::write(temp_path, ..)] *)
  tmp_chmod_ok : bool;
  verify_ok : bool;                  (* [Command::new(temp_path).arg("--help").output()] is [Ok] *)
  current_exe : string + string;
  stop_env : Sup.StopEnv;
  backup_ok : bool;
  remove_exe_ok : bool;
  copy_new_ok : bool;
  chmod_new_ok : bool;
}.

Record UpOut := mkUpOut {
  up_success : bool;
  up_message : string;
  up_fs : Fs;
  up_world : Sup.World;
  up_exec_scheduled : bool;          (* the re-exec task was spawned *)
}.

Definition temp_path : string := "/tmp/miao-new".

Definition find_asset (name : string) (rel : Release) : option string :=
  option_map snd (List.find (fun a => String.eqb (fst a) name) (assets rel)).

(** [fs::copy(src, dst)]: fails when [src] is missing or the I/O fails. *)
Definition fs_copy (ok : bool) (src dst : string) (fs : Fs) : option Fs :=
  match fs !! src with
  | Some c => if ok then Some (<[dst := c]> fs) else None
  | None => None
  end.

(** [fs::remove_file(p)] *)
Definition fs_remove (ok : bool) (p : string) (fs : Fs) : option Fs :=
  match fs !! p with
  | Some _ => if ok then Some (delete p fs) else None
  | None => None
  end.

Definition fail (msg : string) (fs : Fs) (w : Sup.World) : UpOut :=
  mkUpOut false msg fs w false.

(** [upgrade()] up to the spawn of the re-exec task. *)
Definition upgrade (env : UpEnv) (fs : Fs) (w : Sup.World) : UpOut :=
  match release env with
  | inl _ => fail "Failed to fetch release info" fs w
  | inr rel =>
  if negb (Version.is_newer_version ("v" ++ pkg_version env) (tag_name rel))
  then mkUpOut true "Already up to date" fs w false else
  match arch_asset env with
  | None => fail "Unsupported architecture" fs w
  | Some asset_name =>
  match find_asset asset_name rel with
  | None => fail "No binary found for current architecture" fs w
  | Some url =>
  match download env url with
  | inl _ => fail "Failed to download" fs w
  | inr bytes =>
  let '(wrote, fs1) := fs_write (tmp_write_cut env) temp_path bytes fs in
  if negb wrote then fail "Failed to write temp file" fs1 w else
  if negb (tmp_chmod_ok env) then fail "Failed to set permissions" fs1 w else
  if negb (verify_ok env) then
    (* [let _ = fs::remove_file(temp_path)] *)
    fail "New binary verification failed" (delete temp_path fs1) w
  else
  match current_exe env with
  | inl _ => fail "Failed to get current exe path" fs1 w
  | inr exe =>
  let w1 := Sup.stop_sing_internal (stop_env env) w in
  let backup_path := exe ++ ".bak" in
  match fs_copy (backup_ok env) exe backup_path fs1 with
  | None => fail "Failed to backup current binary" fs1 w1
  | Some fs2 =>
  match fs_remove (remove_exe_ok env) exe fs2 with
  | None => fail "Failed to remove old binary" fs2 w1
  | Some fs3 =>
  match fs_copy (copy_new_ok env) temp_path exe fs3 with
  | None =>
      let fs4 := match fs_copy true backup_path exe fs3 with Some f => f | None => fs3 end in
      fail "Failed to copy new binary" fs4 w1
  | Some fs4 =>
  if negb (chmod_new_ok env) then
    let fs5 := match fs_remove true exe fs4 with Some f => f | None => fs4 end in
    let fs6 := match fs_copy true backup_path exe fs5 with Some f => f | None => fs5 end in
    fail "Failed to set permissions" fs6 w1
  else
    let fs5 := match fs_remove true temp_path fs4 with Some f => f | None => fs4 end in
    mkUpOut true "Upgrade complete, restarting..." fs5 w1 true
  end end end end end end end end.

End Upgrade.

(* ========================================================================= *)
(** ** HTTP handlers over the persisted config ([add_sub], [delete_sub],
       [get_subs], [add_node], [delete_node], [get_nodes], [get_status],
       [regenerate_and_restart], [save_config], last-proxy store) *)
(* ========================================================================= *)

Module Api.

Import Gen.

(** [AppState.config], the file system, [SUB_STATUS] and [SING_PROCESS]. *)
Record Srv := mkSrv {
  config : Config;
  files : Fs;
  sub_status : gmap string SubStatus;
  world : Sup.World;
}.

(** What the outside world does during one handler call:
    - [gen]: the [gen_config] environment (its [parse_node] is
      [serde_json::from_str] on a stored node);
    - [to_yaml]: [serde_yaml::to_string] of the config;
    - [save_cut]: outcome of the write of [config.yaml];
    - [node_to_string]: [serde_json::to_string] of a built node;
    - [stop_env], [start_env]: the supervisor's environment. *)
Record ApiEnv := mkApiEnv {
  gen : GenEnv;
  to_yaml : Config -> string;
  save_cut : option nat;
  node_to_string : json -> string;
  stop_env : Sup.StopEnv;
  start_env : Sup.StartEnv;
}.

Definition config_yaml_path : string := "config.yaml".

Definition set_config (c : Config) (s : Srv) : Srv :=
  mkSrv c (files s) (sub_status s) (world s).

Definition set_files (f : Fs) (s : Srv) : Srv :=
  mkSrv (config s) f (sub_status s) (world s).

(** [save_config(config)] *)
Definition save_config (env : ApiEnv) (c : Config) (s : Srv) : bool * Srv :=
  let '(ok, f) := fs_write (save_cut env) config_yaml_path (to_yaml env c) (files s) in
  (ok, set_files f s).

(** [regenerate_and_restart(config)]: [gen_config], then stop, then start. *)
Definition regenerate_and_restart (env : ApiEnv) (c : Config) (s : Srv) : (string + unit) * Srv :=
  let out := gen_config (gen env) c (sub_status s) (files s) in
  let s1 := mkSrv (config s) (gen_fs out) (gen_status out) (world s) in
  match gen_result out with
  | inl _ => (inl "Failed to regenerate config", s1)
  | inr _ =>
      let w1 := Sup.stop_sing_internal (stop_env env) (world s1) in
      match Sup.start_sing_internal (start_env env) w1 with
      | (inl _, w2) => (inl "Failed to restart sing-box", mkSrv (config s1) (files s1) (sub_status s1) w2)
      | (inr _, w2) => (inr tt, mkSrv (config s1) (files s1) (sub_status s1) w2)
      end
  end.

(** The common tail of the mutating handlers: the in-memory config is
    already updated; save it, then regenerate and restart. *)
Definition persist_and_restart (env : ApiEnv) (c : Config) (s : Srv) (ok_msg : string)
    : Sup.Response * Srv :=
  let s0 := set_config c s in
  let '(saved, s1) := save_config env c s0 in
  if negb saved then (Sup.mkResponse 500 false "Failed to save config", s1)
  else match regenerate_and_restart env c s1 with
       | (inl msg, s2) => (Sup.mkResponse 500 false msg, s2)
       | (inr _, s2) => (Sup.mkResponse 200 true ok_msg, s2)
       end.

(** [add_sub] *)
Definition add_sub (env : ApiEnv) (url : string) (s : Srv) : Sup.Response * Srv :=
  let c := config s in
  if existsb (String.eqb url) (subs c) then
    (Sup.mkResponse 400 false "Subscription already exists", s)
  else persist_and_restart env (mkConfig (port c) (subs c ++ [url]) (nodes c)) s
         "Subscription added and sing-box restarted".

(** [delete_sub]: [retain] every other URL; nothing removed means 404. *)
Definition delete_sub (env : ApiEnv) (url : string) (s : Srv) : Sup.Response * Srv :=
  let c := config s in
  let kept := List.filter (fun u => negb (String.eqb u url)) (subs c) in
  let c' := mkConfig (port c) kept (nodes c) in
  if Nat.eqb (length kept) (length (subs c)) then
    (Sup.mkResponse 404 false "Subscription not found", set_config c' s)
  else persist_and_restart env c' s "Subscription deleted and sing-box restarted".

(** [get_subs]: the stored status of each URL, or a pending default. *)
Definition get_subs (s : Srv) : list SubStatus :=
  map (fun url => match sub_status s !! url with
                  | Some st => st
                  | None => mkSubStatus url true 0 None
                  end) (subs (config s)).

(** [NodeRequest] *)
Record NodeRequest := mkNodeRequest {
  node_type : option string;
  req_tag : string;
  req_server : string;
  req_server_port : Z;     (* a u16 *)
  req_password : string;
  req_sni : option string;
  req_cipher : option string;
}.

(** The node [add_node] builds: anytls, ss, or hysteria2 for any other
    (or missing) type. *)
Definition build_node (req : NodeRequest) : json :=
  let typ := match node_type req with Some t => t | None => "hysteria2" end in
  if String.eqb typ "anytls" then
    JObj [("type", JStr "anytls"); ("tag", JStr (req_tag req));
          ("server", JStr (req_server req)); ("server_port", JNum (req_server_port req));
          ("password", JStr (req_password req));
          ("tls", Sub.tls_json (req_sni req) true)]
  else if String.eqb typ "ss" then
    JObj [("type", JStr "shadowsocks"); ("tag", JStr (req_tag req));
          ("server", JStr (req_server req)); ("server_port", JNum (req_server_port req));
          ("method", JStr (match req_cipher req with
                           | Some c => c | None => "2022-blake3-aes-128-gcm" end));
          ("password", JStr (req_password req))]
  else
    JObj [("type", JStr "hysteria2"); ("tag", JStr (req_tag req));
          ("server", JStr (req_server req)); ("server_port", JNum (req_server_port req));
          ("password", JStr (req_password req));
          ("up_mbps", JNum 40); ("down_mbps", JNum 350);
          ("tls", Sub.tls_json (req_sni req) true)].

(** [v.get("tag").and_then(|t| t.as_str())] of a stored node, if it parses. *)
Definition stored_tag (env : ApiEnv) (node_str : string) : option string :=
  match parse_node (gen env) node_str with
  | Some v => and_then (get "tag" v) as_str
  | None => None
  end.

Definition opt_str_eqb (a b : option string) : bool :=
  match a, b with
  | Some x, Some y => String.eqb x y
  | None, None => true
  | _, _ => false
  end.

(** [add_node] *)
Definition add_node (env : ApiEnv) (req : NodeRequest) (s : Srv) : Sup.Response * Srv :=
  let c := config s in
  if existsb (fun n => opt_str_eqb (stored_tag env n) (Some (req_tag req))) (nodes c) then
    (Sup.mkResponse 400 false "Node with this tag already exists", s)
  else persist_and_restart env
         (mkConfig (port c) (subs c) (nodes c ++ [node_to_string env (build_node req)])) s
         "Node added and sing-box restarted".

(** [delete_node]: keep nodes that do not parse or whose tag differs. *)
Definition delete_node (env : ApiEnv) (tag : string) (s : Srv) : Sup.Response * Srv :=
  let c := config s in
  let kept := List.filter (fun n => negb (opt_str_eqb (stored_tag env n) (Some tag))) (nodes c) in
  let c' := mkConfig (port c) (subs c) kept in
  if Nat.eqb (length kept) (length (nodes c)) then
    (Sup.mkResponse 404 false "Node not found", set_config c' s)
  else persist_and_restart env c' s "Node deleted and sing-box restarted".

Record NodeInfo := mkNodeInfo {
  info_tag : string;
  info_server : string;
  info_server_port : Z;
  info_sni : option string;
}.

Definition as_u64 (v : json) : option Z :=
  match v with
  | JNum n => if (0 <=? n)%Z && (n <? 2 ^ 64)%Z then Some n else None
  | _ => None
  end.

Definition node_info (v : json) : NodeInfo :=
  mkNodeInfo
    (match and_then (get "tag" v) as_str with Some t => t | None => EmptyString end)
    (match and_then (get "server" v) as_str with Some t => t | None => EmptyString end)
    (match and_then (get "server_port" v) as_u64 with Some p => Z.modulo p 65536 | None => 0%Z end)
    (and_then (and_then (get "tls" v) (get "server_name")) as_str).

(** [get_nodes] *)
Definition get_nodes (env : ApiEnv) (s : Srv) : list NodeInfo :=
  omap (fun n => option_map node_info (parse_node (gen env) n)) (nodes (config s)).



(** Last selected proxy ([LastProxy], [.last_proxy]). *)
Definition last_proxy_path : string := sing_box_home ++ "/.last_proxy".

(** [serde_json] for [LastProxy]: [to_string] and [from_str]. *)
Record LastProxyEnv := mkLastProxyEnv {
  lp_to_string : string * string -> string;
  lp_parse : string -> option (string * string);
  lp_write_cut : option nat;
  lp_client_ok : bool;
  group_info : string -> option json;   (* GET /proxies/{group}, parsed *)
}.

(** [save_last_proxy] / [set_last_proxy] *)
Definition set_last_proxy (env : LastProxyEnv) (g : string * string) (fs : Fs) : bool * Fs :=
  fs_write (lp_write_cut env) last_proxy_path (lp_to_string env g) fs.

(** [load_last_proxy] *)
Definition load_last_proxy (env : LastProxyEnv) (fs : Fs) : option (string * string) :=
  match fs !! last_proxy_path with
  | Some content => lp_parse env content
  | None => None
  end.

(** [restore_last_proxy]: the PUT selection it sends, if any. *)
Definition restore_last_proxy (env : LastProxyEnv) (fs : Fs) : option (string * string) :=
  match load_last_proxy env fs with
  | None => None
  | Some (g, n) =>
      if negb (lp_client_ok env) then None else
      match group_info env g with
      | None => None
      | Some info =>
          match get "all" info with
          | Some (JArr members) =>
              if existsb (fun m => opt_str_eqb (as_str m) (Some n)) members
              then Some (g, n) else None
          | _ => None
          end
      end
  end.

(** The status one iteration of the [gen_config] loop records for [url]. *)
Definition sub_status_of (genv : GenEnv) (url : string) : SubStatus :=
  match Sub.fetch_sub (fetch_response genv url) with
  | inr (nn, _) =>
      let count := length nn in
      mkSubStatus url (negb (Nat.eqb count 0)) count
        (if Nat.eqb count 0 then Some "No nodes found" else None)
  | inl e => mkSubStatus url false 0 (Some e)
  end.

(** The names and outbounds one subscription contributes. *)
Definition sub_output_of (genv : GenEnv) (url : string) : list string * list json :=
  match Sub.fetch_sub (fetch_response genv url) with
  | inr r => r
  | inl _ => ([], [])
  end.

End Api.

(* ========================================================================= *)
(** ** Version check ([get_version]) *)
(* ========================================================================= *)

Module VersionApi.

Import Upgrade.

Record VersionInfo := mkVersionInfo {
  vi_current : string;
  vi_latest : option string;
  has_update : bool;
  download_url : option string;
}.

(** [get_version()]: [client_ok] is the outcome of building the HTTP
    client, [rel] the fetched and parsed latest release; on an unsupported
    target the asset name looked up is the empty string. *)
Definition get_version (client_ok : bool) (pkg_version : string) (rel : string + Release)
    (arch : option string) : VersionInfo :=
  let current := ("v" ++ pkg_version)%string in
  if negb client_ok then mkVersionInfo current None false None else
  match rel with
  | inl _ => mkVersionInfo current None false None
  | inr r =>
      let latest := tag_name r in
      mkVersionInfo current (Some latest) (Version.is_newer_version current latest)
        (find_asset (match arch with Some a => a | None => EmptyString end) r)
  end.

End VersionApi.

(* ========================================================================= *)
(** ** Concrete inputs used by the examples and witnesses *)
(* ========================================================================= *)

Module Samples.

(** A concrete run: one manual node, one subscription with one node. *)
Definition demo_env (cut : option nat) : Gen.GenEnv :=
  Gen.mkGenEnv
    (fun s => if String.eqb s "node-m" then Some (JObj [("tag", JStr "m")]) else None)
    (fun _ => inr (YMap [("proxies", YSeq [YMap [("type", YStr "ss"); ("name", YStr "HK")]])]))
    (fun _ => "{...}")
    cut.

(** A feed with one hysteria2 proxy that has no name. *)
Definition unnamed_hysteria2 : string + yaml :=
  inr (YMap [("proxies", YSeq [YMap [("type", YStr "hysteria2"); ("server", YStr "h.example")]])]).

Definition ok_env : Sup.StartEnv := Sup.mkStartEnv true None true (fun _ => true) (Sup.mkStopEnv (Some 3)).

Definition probe_fail_env : Sup.StartEnv :=
  Sup.mkStartEnv true None true (fun _ => false) (Sup.mkStopEnv None).

Definition running_world : Sup.World := Sup.mkWorld (Some 7) {[7]} 8 [Sup.ESpawn 7].

Definition exe_fs : Gen.Fs := <["/usr/bin/miao" := "OLD"]> ∅.

Definition failing_verify_env : Upgrade.UpEnv :=
  Upgrade.mkUpEnv "0.6.10"
    (inr (Upgrade.mkRelease "v0.7.0" [("miao-rust-linux-amd64", "https://dl.example/miao")]))
    (Some "miao-rust-linux-amd64") (fun _ => inr "NEW") None true false
    (inr "/usr/bin/miao") (Sup.mkStopEnv None) true true true true.

End Samples.

(** Concrete handler inputs: a parser that knows one manual node and the
    node [add_node] builds for [sample_req], a feed with one ss node. *)
Module ApiSamples.

Definition sample_req : Api.NodeRequest :=
  Api.mkNodeRequest (Some "ss") "jp" "jp.example" 8388 "pw" (Some "jp.example") None.

Definition sample_parse (s : string) : option json :=
  if String.eqb s "node-m" then Some (JObj [("tag", JStr "m")])
  else if String.eqb s "node-jp" then Some (Api.build_node sample_req)
  else None.

Definition sample_gen : Gen.GenEnv :=
  Gen.mkGenEnv sample_parse
    (fun _ => inr (YMap [("proxies", YSeq [YMap [("type", YStr "ss"); ("name", YStr "HK")]])]))
    (fun _ => "{...}") None.

Definition sample_env (save : option nat) (st : Sup.StartEnv) : Api.ApiEnv :=
  Api.mkApiEnv sample_gen (fun _ => "port: 7890") save (fun _ => "node-jp")
    (Sup.mkStopEnv (Some 3)) st.

Definition empty_srv : Api.Srv :=
  Api.mkSrv (Gen.mkConfig None [] []) ∅ ∅ Sup.initial_world.

Definition manual_srv : Api.Srv :=
  Api.mkSrv (Gen.mkConfig None [] ["node-m"]) ∅ ∅ Sup.initial_world.

Definition running_srv : Api.Srv :=
  Api.mkSrv (Gen.mkConfig None [] []) ∅ ∅ Samples.running_world.

Definition feed_srv : Api.Srv :=
  Api.mkSrv (Gen.mkConfig None ["https://a.example/sub"] []) ∅ ∅ Sup.initial_world.

Definition sample_lp_env : Api.LastProxyEnv :=
  Api.mkLastProxyEnv
    (fun g => fst g ++ "/" ++ snd g)
    (fun s => if String.eqb s "proxy/HK" then Some ("proxy", "HK") else None)
    None true
    (fun g => if String.eqb g "proxy" then Some (JObj [("all", JArr [JStr "HK"; JStr "JP"])])
              else None).

Definition upgrade_ok_env : Upgrade.UpEnv :=
  Upgrade.mkUpEnv "0.6.10"
    (inr (Upgrade.mkRelease "v0.7.0" [("miao-rust-linux-amd64", "https://dl.example/miao")]))
    (Some "miao-rust-linux-amd64") (fun _ => inr "NEW") None true true
    (inr "/usr/bin/miao") (Sup.mkStopEnv None) true true true true.

Definition up_to_date_env : Upgrade.UpEnv :=
  Upgrade.mkUpEnv "0.7.0"
    (inr (Upgrade.mkRelease "v0.7.0" [("miao-rust-linux-amd64", "https://dl.example/miao")]))
    (Some "miao-rust-linux-amd64") (fun _ => inr "NEW") None true true
    (inr "/usr/bin/miao") (Sup.mkStopEnv None) true true true true.

End ApiSamples.

(* ========================================================================= *)
(** * Properties *)
(* ========================================================================= *)

Module GenFacts.

Import Gen.

Lemma fetch_all_outputs_indep env urls names obs st st' :
  fst (fetch_all env urls names obs st) = fst (fetch_all env urls names obs st').
Proof.
  revert names obs st st'.
  induction urls as [|u urls IH]; intros names obs st st'; [reflexivity|].
  simpl. destruct (Sub.fetch_sub (fetch_response env u)) as [e|[nn oo]]; apply IH.
Qed.

Lemma gen_config_unfold env cfg st fs :
  gen_config env cfg st fs =
  let st0 := filter (fun kv => kv.1 ∈ subs cfg) st in
  let st1 := snd (fetch_all env (subs cfg) [] [] st0) in
  if Nat.eqb (length (my_outbounds env cfg) + length (fetched_outbounds env cfg)) 0
  then mkGenOut (inl NoNodesAvailable) st1 fs
  else
    let doc := build_config (my_names env cfg ++ fetched_names env cfg)
                            (my_outbounds env cfg ++ fetched_outbounds env cfg) in
    let '(ok, fs') := fs_write (write_cut env) config_path (serialize env doc) fs in
    mkGenOut (if ok then inr tt else inl WriteFailed) st1 fs'.
Proof.
  unfold gen_config, fetched_outbounds, fetched_names.
  rewrite (fetch_all_outputs_indep env (subs cfg) [] []
             ∅ (filter (fun kv => kv.1 ∈ subs cfg) st)).
  destruct (fetch_all env (subs cfg) [] [] (filter (fun kv => kv.1 ∈ subs cfg) st))
    as [[fnames fobs] st1].
  reflexivity.
Qed.

Lemma selector_members_build names obs :
  selector_members (build_config names obs) = Some (map JStr names).
Proof. reflexivity. Qed.

Example build_config_order :
  selector_members (build_config ["manual"; "HK 1"] []) = Some [JStr "manual"; JStr "HK 1"].
Proof. reflexivity. Qed.


End GenFacts.

(** C1: when the stored manual nodes parse to no outbound and the
    subscriptions yield no outbound, [gen_config] fails with the
    no-nodes-available error and the file system, [config.json] included,
    is exactly as before: nothing is written. *)
Theorem gen_config_empty_fails_without_write (env : Gen.GenEnv) (cfg : Gen.Config)
    (st : gmap string Gen.SubStatus) (fs : Gen.Fs) :
  Gen.my_outbounds env cfg = [] ->
  Gen.fetched_outbounds env cfg = [] ->
  Gen.gen_result (Gen.gen_config env cfg st fs) = inl Gen.NoNodesAvailable /\
  Gen.gen_fs (Gen.gen_config env cfg st fs) = fs.
Proof.
  intros Hm Hf. rewrite GenFacts.gen_config_unfold. cbn zeta.
  rewrite Hm, Hf. split; reflexivity.
Qed.

Lemma gen_config_empty_fails_without_write_witness :
  let env := Gen.mkGenEnv (fun _ => None) (fun _ => inl "timeout") (fun _ => "{...}") None in
  let cfg := Gen.mkConfig None ["https://sub.example/a"] ["not json"] in
  let fs := <[Gen.config_path := "previous"]> (∅ : Gen.Fs) in
  Gen.gen_result (Gen.gen_config env cfg ∅ fs) = inl Gen.NoNodesAvailable /\
  Gen.gen_fs (Gen.gen_config env cfg ∅ fs) = fs.
Proof.
  intros env cfg fs.
  apply (gen_config_empty_fails_without_write env cfg ∅ fs); reflexivity.
Defined.

(** C2: when at least one manual or fetched outbound exists, the document
    [gen_config] writes has as selector member list exactly the manual
    tags followed by the fetched tags (so its length is the sum of the two
    counts), and a completed write stores that document in [config.json]. *)
Theorem gen_config_selector_manual_first (env : Gen.GenEnv) (cfg : Gen.Config)
    (st : gmap string Gen.SubStatus) (fs : Gen.Fs) :
  0 < length (Gen.my_outbounds env cfg) + length (Gen.fetched_outbounds env cfg) ->
  exists doc : json,
    Gen.selector_members doc =
      Some (map JStr (Gen.my_names env cfg ++ Gen.fetched_names env cfg)) /\
    length (map JStr (Gen.my_names env cfg ++ Gen.fetched_names env cfg)) =
      length (Gen.my_names env cfg) + length (Gen.fetched_names env cfg) /\
    (Gen.write_cut env = None ->
     Gen.gen_result (Gen.gen_config env cfg st fs) = inr tt /\
     Gen.gen_fs (Gen.gen_config env cfg st fs) =
       <[Gen.config_path := Gen.serialize env doc]> fs).
Proof.
  intros Hpos.
  exists (Gen.build_config (Gen.my_names env cfg ++ Gen.fetched_names env cfg)
                           (Gen.my_outbounds env cfg ++ Gen.fetched_outbounds env cfg)).
  split; [apply GenFacts.selector_members_build|].
  split; [rewrite length_map, length_app; reflexivity|].
  intros Hcut. rewrite GenFacts.gen_config_unfold. cbn zeta.
  destruct (Nat.eqb_spec (length (Gen.my_outbounds env cfg)
                          + length (Gen.fetched_outbounds env cfg)) 0) as [E|_]; [lia|].
  unfold Gen.fs_write. rewrite Hcut. split; reflexivity.
Qed.

Lemma gen_config_selector_manual_first_witness :
  0 < length (Gen.my_outbounds (Samples.demo_env None) (Gen.mkConfig None ["u"] ["node-m"]))
      + length (Gen.fetched_outbounds (Samples.demo_env None) (Gen.mkConfig None ["u"] ["node-m"])) /\
  exists doc : json,
    Gen.selector_members doc = Some [JStr "m"; JStr "HK"] /\
    length [JStr "m"; JStr "HK"] = 1 + 1 /\
    (None = @None nat ->
     Gen.gen_result (Gen.gen_config (Samples.demo_env None) (Gen.mkConfig None ["u"] ["node-m"]) ∅ ∅) = inr tt /\
     Gen.gen_fs (Gen.gen_config (Samples.demo_env None) (Gen.mkConfig None ["u"] ["node-m"]) ∅ ∅) =
       <[Gen.config_path := "{...}"]> ∅).
Proof.
  split; [vm_compute; lia|].
  exact (gen_config_selector_manual_first (Samples.demo_env None)
           (Gen.mkConfig None ["u"] ["node-m"]) ∅ ∅ ltac:(vm_compute; lia)).
Defined.

(** C6 (as stated): interrupting the write of a non-empty synthesis can
    leave a truncated [config.json]: with one manual node, a run stopped
    after 0 bytes leaves an empty file, which is neither the previous
    contents (no file) nor the new document. *)
Lemma gen_config_write_not_atomic :
  ~ Gen.atomic_config_write (Samples.demo_env None) (Gen.mkConfig None [] ["node-m"]) ∅ ∅.
Proof.
  intros H. specialize (H 0). vm_compute in H. destruct H as [H|H]; discriminate H.
Qed.

(** C6 (amended): when the merged outbound set is non-empty, [gen_config]
    writes the serialised document in place at [config.json] (no temporary
    file, no rename, no other file touched); a write stopped after [k]
    bytes leaves exactly the first [k] bytes there and reports an error. *)
Theorem gen_config_writes_in_place (env : Gen.GenEnv) (cfg : Gen.Config)
    (st : gmap string Gen.SubStatus) (fs : Gen.Fs) :
  0 < length (Gen.my_outbounds env cfg) + length (Gen.fetched_outbounds env cfg) ->
  let doc := Gen.serialize env
               (Gen.build_config (Gen.my_names env cfg ++ Gen.fetched_names env cfg)
                  (Gen.my_outbounds env cfg ++ Gen.fetched_outbounds env cfg)) in
  Gen.gen_fs (Gen.gen_config env cfg st fs) =
    <[Gen.config_path := match Gen.write_cut env with
                         | None => doc
                         | Some k => substring 0 k doc
                         end]> fs /\
  Gen.gen_result (Gen.gen_config env cfg st fs) =
    match Gen.write_cut env with None => inr tt | Some _ => inl Gen.WriteFailed end.
Proof.
  intros Hpos doc. rewrite GenFacts.gen_config_unfold. cbn zeta.
  destruct (Nat.eqb_spec (length (Gen.my_outbounds env cfg)
                          + length (Gen.fetched_outbounds env cfg)) 0) as [E|_]; [lia|].
  unfold Gen.fs_write. destruct (Gen.write_cut env); split; reflexivity.
Qed.

Lemma gen_config_writes_in_place_witness :
  0 < length (Gen.my_outbounds (Samples.demo_env (Some 2)) (Gen.mkConfig None [] ["node-m"]))
      + length (Gen.fetched_outbounds (Samples.demo_env (Some 2)) (Gen.mkConfig None [] ["node-m"])) /\
  Gen.gen_fs (Gen.gen_config (Samples.demo_env (Some 2)) (Gen.mkConfig None [] ["node-m"]) ∅ ∅) =
    <[Gen.config_path := "{."]> ∅.
Proof.
  split; [vm_compute; lia|].
  exact (proj1 (gen_config_writes_in_place (Samples.demo_env (Some 2))
                  (Gen.mkConfig None [] ["node-m"]) ∅ ∅ ltac:(vm_compute; lia))).
Defined.

Module SubFacts.

Import Sub.

Lemma translate_all_omap (nodes : list yaml) :
  translate_all nodes = (map fst (omap translate nodes), map snd (omap translate nodes)).
Proof.
  induction nodes as [|n rest IH]; [reflexivity|].
  simpl. rewrite IH. destruct (translate n) as [[nm ob]|]; reflexivity.
Qed.

Lemma contains_empty (m : string) : contains m EmptyString -> m = EmptyString.
Proof.
  intros [p [q H]]. destruct p as [|c p]; [|discriminate H].
  destruct m as [|c m]; [reflexivity|discriminate H].
Qed.


End SubFacts.

(** C7 (as stated): [fetch_sub] applies no name filter. Whatever non-empty
    region markers are chosen, a feed with one hysteria2 proxy whose name is
    empty (so contains no marker) yields that proxy. *)
Lemma fetch_sub_keeps_names_without_marker :
  ~ exists markers : list string,
      Forall (fun m => m <> EmptyString) markers /\ Sub.filters_by_markers markers.
Proof.
  intros [markers [Hne Hf]].
  specialize (Hf Samples.unnamed_hysteria2 _ _ eq_refl).
  inversion Hf as [|n l [m [Hin Hc]] _ Heq]; subst.
  apply SubFacts.contains_empty in Hc. subst m.
  rewrite List.Forall_forall in Hne. exact (Hne EmptyString Hin eq_refl).
Qed.

(** C7 (amended): [fetch_sub] keeps every proxy of the feed, in order,
    whose type is hysteria2, anytls or ss, whatever its name, tags it with
    its name, and silently skips every proxy of any other type; a failed
    request or parse is returned as an error. *)
Theorem fetch_sub_translates_supported (resp : string + yaml) :
  Sub.fetch_sub resp =
    match resp with
    | inl e => inl e
    | inr doc =>
        inr (map fst (omap Sub.translate (Sub.proxies_of doc)),
             map snd (omap Sub.translate (Sub.proxies_of doc)))
    end /\
  (forall node, Sub.translate node = None <->
                ~ In (Sub.str_field "type" node) ["hysteria2"; "anytls"; "ss"]) /\
  (forall node nm ob, Sub.translate node = Some (nm, ob) -> nm = Sub.str_field "name" node).
Proof.
  split; [|split].
  - destruct resp as [e|doc]; [reflexivity|]. simpl. f_equal. apply SubFacts.translate_all_omap.
  - intros node. unfold Sub.translate.
    destruct (String.eqb_spec (Sub.str_field "type" node) "hysteria2") as [E1|E1];
    [|destruct (String.eqb_spec (Sub.str_field "type" node) "anytls") as [E2|E2];
      [|destruct (String.eqb_spec (Sub.str_field "type" node) "ss") as [E3|E3]]];
    simpl; split; intros H; try discriminate; try reflexivity.
    + exfalso. apply H. auto.
    + exfalso. apply H. auto.
    + exfalso. apply H. auto.
    + intros [?|[?|[?|[]]]]; congruence.
  - intros node nm ob. unfold Sub.translate.
    destruct (String.eqb (Sub.str_field "type" node) "hysteria2");
    [|destruct (String.eqb (Sub.str_field "type" node) "anytls");
      [|destruct (String.eqb (Sub.str_field "type" node) "ss")]];
    intros H; try discriminate H; injection H; intros; subst; reflexivity.
Qed.

Module SupFacts.

Import Sup.

Lemma stop_handle (senv : StopEnv) (w : World) : handle (stop_sing_internal senv w) = None.
Proof.
  unfold stop_sing_internal.
  destruct (handle w) as [p|]; [|reflexivity].
  destruct (alive p w); [|reflexivity].
  destruct (poll_exit 30 0 (sigterm_exit_poll senv)); reflexivity.
Qed.

Lemma stop_noop (senv : StopEnv) (w : World) :
  handle w = None -> stop_sing_internal senv w = w.
Proof. destruct w as [h r n t]; simpl; intros ->; reflexivity. Qed.

Lemma single_instance_idle (w : World) :
  single_instance w ->
  match handle w with Some p => p ∉ running w | None => True end ->
  running w = ∅.
Proof.
  intros Hs Hh. apply set_eq. intros q. split; [|set_solver].
  intros Hq. pose proof (Hs q Hq) as E. rewrite E in Hh. contradiction.
Qed.

Lemma stop_running_empty (senv : StopEnv) (w : World) :
  single_instance w -> running (stop_sing_internal senv w) = ∅.
Proof.
  intros Hs. unfold stop_sing_internal.
  destruct (handle w) as [p|] eqn:Hh.
  - unfold alive. case_bool_decide as Hp.
    + assert (Hr : running w ⊆ {[p]}).
      { intros q Hq. rewrite (Hs q Hq) in Hh. injection Hh as ->. set_solver. }
      destruct (poll_exit 30 0 (sigterm_exit_poll senv)); simpl; set_solver.
    + simpl. apply single_instance_idle; [exact Hs|]. rewrite Hh. exact Hp.
  - simpl. apply single_instance_idle; [exact Hs|]. rewrite Hh. exact I.
Qed.

Lemma stop_single_instance (senv : StopEnv) (w : World) :
  single_instance w -> single_instance (stop_sing_internal senv w).
Proof.
  intros Hs q Hq. rewrite (stop_running_empty senv w Hs) in Hq. set_solver.
Qed.

Lemma probe_all_fail (env : StartEnv) :
  (forall k, probe env k = false) -> connectivity_ok env = false.
Proof. intros H. unfold connectivity_ok. simpl. rewrite !H. reflexivity. Qed.

Lemma start_locked_single_instance (env : StartEnv) (w : World) :
  single_instance w -> single_instance (snd (start_locked env w)).
Proof.
  intros Hs.
  assert (Hgo : match handle w with Some p => p ∉ running w | None => True end ->
    single_instance (snd (if negb (spawn_ok env) then (inl SpawnFailed, w)
      else match immediate_exit env with
           | Some code => (inl (ImmediateExit code),
               exit_proc (next_pid w) (mkWorld (handle w) ({[next_pid w]} ∪ running w)
                 (S (next_pid w)) (trace w ++ [ESpawn (next_pid w)])))
           | None => (inr tt, set_handle (Some (next_pid w))
               (mkWorld (handle w) ({[next_pid w]} ∪ running w)
                 (S (next_pid w)) (trace w ++ [ESpawn (next_pid w)])))
           end))).
  { intros Hidle. pose proof (single_instance_idle w Hs Hidle) as E.
    destruct (spawn_ok env); simpl; [|exact Hs].
    destruct (immediate_exit env); simpl; intros q Hq; simpl in Hq; rewrite E in Hq.
    - set_solver.
    - f_equal. set_solver. }
  unfold start_locked. destruct (handle w) as [p|] eqn:Hh.
  - unfold alive. case_bool_decide as Hp; [exact Hs|]. apply Hgo. exact Hp.
  - apply Hgo. exact I.
Qed.

Lemma start_single_instance (env : StartEnv) (w : World) :
  single_instance w -> single_instance (snd (start_sing_internal env w)).
Proof.
  intros Hs. pose proof (start_locked_single_instance env w Hs) as H1.
  unfold start_sing_internal.
  destruct (start_locked env w) as [[e|u] w1]; simpl in *; [exact H1|].
  destruct (client_ok env); simpl; [|exact H1].
  destruct (connectivity_ok env); simpl; [exact H1|].
  apply stop_single_instance. exact H1.
Qed.

Lemma start_ok_stored (env : StartEnv) (w : World) :
  single_instance w -> fst (start_sing_internal env w) = inr tt ->
  exists p, handle (snd (start_sing_internal env w)) = Some p /\
            running (snd (start_sing_internal env w)) = {[p]}.
Proof.
  intros Hs Hok.
  unfold start_sing_internal, start_locked in *.
  destruct (handle w) as [q|] eqn:Hh.
  - unfold alive in *. case_bool_decide as Hq; [discriminate Hok|].
    pose proof (single_instance_idle w Hs) as E. rewrite Hh in E. specialize (E Hq).
    destruct (spawn_ok env); simpl in *; [|discriminate Hok].
    destruct (immediate_exit env); simpl in *; [discriminate Hok|].
    destruct (client_ok env); simpl in *; [|discriminate Hok].
    destruct (connectivity_ok env); simpl in *; [|discriminate Hok].
    exists (next_pid w). split; [reflexivity|]. rewrite E. set_solver.
  - pose proof (single_instance_idle w Hs) as E. rewrite Hh in E. specialize (E I).
    destruct (spawn_ok env); simpl in *; [|discriminate Hok].
    destruct (immediate_exit env); simpl in *; [discriminate Hok|].
    destruct (client_ok env); simpl in *; [|discriminate Hok].
    destruct (connectivity_ok env); simpl in *; [|discriminate Hok].
    exists (next_pid w). split; [reflexivity|]. rewrite E. set_solver.
Qed.


End SupFacts.

(** C3: when no sing-box process is alive, the spawn succeeds, the child
    survives the 500ms settle check and all 3 connectivity attempts fail,
    [start_sing_internal] returns the connectivity-check error, the handle
    is cleared and no sing-box process is left alive; the child was sent
    SIGTERM first and SIGKILL only if it did not exit in time. *)
Theorem start_probe_failure_tears_down (env : Sup.StartEnv) (w : Sup.World) :
  Sup.running w = ∅ ->
  Sup.spawn_ok env = true ->
  Sup.immediate_exit env = None ->
  Sup.client_ok env = true ->
  (forall k, Sup.probe env k = false) ->
  let p := Sup.next_pid w in
  fst (Sup.start_sing_internal env w) = inl Sup.ConnectivityCheckFailed /\
  Sup.handle (snd (Sup.start_sing_internal env w)) = None /\
  Sup.running (snd (Sup.start_sing_internal env w)) = ∅ /\
  (Sup.trace (snd (Sup.start_sing_internal env w)) =
     (Sup.trace w ++ [Sup.ESpawn p; Sup.ESigterm p; Sup.EExit p])%list \/
   Sup.trace (snd (Sup.start_sing_internal env w)) =
     (Sup.trace w ++ [Sup.ESpawn p; Sup.ESigterm p; Sup.ESigkill p; Sup.EExit p])%list).
Proof.
  intros Hr Hsp Him Hcl Hpr p.
  assert (Hgo : Sup.start_locked env w =
    (inr tt, Sup.set_handle (Some p)
       (Sup.mkWorld (Sup.handle w) ({[p]} ∪ Sup.running w) (S p)
          (Sup.trace w ++ [Sup.ESpawn p])%list))).
  { unfold Sup.start_locked. rewrite Hsp, Him.
    destruct (Sup.handle w) as [q|]; [|reflexivity].
    unfold Sup.alive. rewrite Hr. reflexivity. }
  unfold Sup.start_sing_internal. rewrite Hgo, Hcl, (SupFacts.probe_all_fail env Hpr).
  cbn -[Sup.poll_exit]. unfold Sup.stop_sing_internal. cbn -[Sup.poll_exit].
  unfold Sup.alive. cbn -[Sup.poll_exit].
  rewrite bool_decide_true by set_solver.
  destruct (Sup.poll_exit 30 0 (Sup.sigterm_exit_poll (Sup.teardown env))); simpl;
    (split; [reflexivity|]); (split; [reflexivity|]);
    (split; [rewrite Hr; set_solver|]).
  - left. rewrite <- !app_assoc. reflexivity.
  - right. rewrite <- !app_assoc. reflexivity.
Qed.

Lemma start_probe_failure_tears_down_witness :
  Sup.running Sup.initial_world = ∅ /\
  fst (Sup.start_sing_internal Samples.probe_fail_env Sup.initial_world)
    = inl Sup.ConnectivityCheckFailed.
Proof.
  split; [reflexivity|].
  exact (proj1 (start_probe_failure_tears_down Samples.probe_fail_env Sup.initial_world
                  eq_refl eq_refl eq_refl eq_refl (fun _ => eq_refl))).
Defined.

(** C4: after a successful first start (from a state where at most the
    stored process is alive), exactly one sing-box process is alive and it
    is the stored one; a second start, without a stop in between, fails
    with the already-running error and changes nothing, both through
    [start_sing_internal] and through the [start_service] handler. Every
    start, its locked part alone and every stop preserve the
    at-most-one-instance invariant. *)
Theorem start_twice_single_instance (env1 env2 : Sup.StartEnv) (w0 : Sup.World) :
  Sup.single_instance w0 ->
  fst (Sup.start_sing_internal env1 w0) = inr tt ->
  let w1 := snd (Sup.start_sing_internal env1 w0) in
  (exists p, Sup.handle w1 = Some p /\ Sup.running w1 = {[p]}) /\
  Sup.start_sing_internal env2 w1 = (inl Sup.AlreadyRunning, w1) /\
  Sup.start_service env2 w1 = (Sup.mkResponse 400 false "sing-box is already running", w1) /\
  (forall env w, Sup.single_instance w -> Sup.single_instance (snd (Sup.start_sing_internal env w))) /\
  (forall env w, Sup.single_instance w -> Sup.single_instance (snd (Sup.start_locked env w))) /\
  (forall senv w, Sup.single_instance w -> Sup.single_instance (Sup.stop_sing_internal senv w)).
Proof.
  intros Hs Hok w1.
  destruct (SupFacts.start_ok_stored env1 w0 Hs Hok) as [p [Hh Hr]].
  fold w1 in Hh, Hr.
  assert (Halive : Sup.alive p w1 = true).
  { unfold Sup.alive. rewrite Hr. apply bool_decide_true. set_solver. }
  split; [exists p; split; assumption|].
  split; [unfold Sup.start_sing_internal, Sup.start_locked; rewrite Hh, Halive; reflexivity|].
  split; [unfold Sup.start_service; rewrite Hh, Halive; reflexivity|].
  split; [exact SupFacts.start_single_instance|].
  split; [exact SupFacts.start_locked_single_instance|].
  exact SupFacts.stop_single_instance.
Qed.

Lemma start_twice_single_instance_witness :
  Sup.single_instance Sup.initial_world /\
  fst (Sup.start_sing_internal Samples.ok_env Sup.initial_world) = inr tt /\
  Sup.start_sing_internal Samples.ok_env (snd (Sup.start_sing_internal Samples.ok_env Sup.initial_world))
    = (inl Sup.AlreadyRunning, snd (Sup.start_sing_internal Samples.ok_env Sup.initial_world)).
Proof.
  assert (Hs : Sup.single_instance Sup.initial_world).
  { intros q Hq. simpl in Hq. set_solver. }
  split; [exact Hs|]. split; [reflexivity|].
  exact (proj1 (proj2 (start_twice_single_instance Samples.ok_env Samples.ok_env
                         Sup.initial_world Hs eq_refl))).
Defined.

(** C5: [stop_sing_internal] always ends with the handle cleared, whatever
    the child does with the signals; on a stopped supervisor any sequence
    of [stop_service] calls changes nothing and each answers success. *)
Theorem stop_idempotent (senvs : list Sup.StopEnv) (w : Sup.World) :
  Sup.handle w = None ->
  fold_left (fun w s => snd (Sup.stop_service s w)) senvs w = w /\
  Forall (fun s => Sup.stop_service s w = (Sup.mkResponse 200 true "sing-box stopped", w)) senvs /\
  (forall senv w', Sup.handle (Sup.stop_sing_internal senv w') = None).
Proof.
  intros Hh. split; [|split].
  - induction senvs as [|s senvs IH]; [reflexivity|].
    simpl. rewrite (SupFacts.stop_noop s w Hh). exact IH.
  - apply Forall_forall. intros s _. unfold Sup.stop_service.
    rewrite (SupFacts.stop_noop s w Hh). reflexivity.
  - exact SupFacts.stop_handle.
Qed.

Lemma stop_idempotent_witness :
  Sup.handle Sup.initial_world = None /\
  fold_left (fun w s => snd (Sup.stop_service s w))
    [Sup.mkStopEnv None; Sup.mkStopEnv (Some 1); Sup.mkStopEnv None] Sup.initial_world
    = Sup.initial_world.
Proof.
  split; [reflexivity|].
  exact (proj1 (stop_idempotent [Sup.mkStopEnv None; Sup.mkStopEnv (Some 1); Sup.mkStopEnv None]
                  Sup.initial_world eq_refl)).
Defined.

(** C8 (as stated): a start request while sing-box runs is answered with
    status 400, not 409. *)
Lemma start_service_running_not_409 :
  Sup.status (fst (Sup.start_service Samples.ok_env Samples.running_world)) = 400%N /\
  Sup.status (fst (Sup.start_service Samples.ok_env Samples.running_world)) <> 409%N.
Proof. vm_compute. split; [reflexivity|discriminate]. Qed.

(** C8 (amended): while the stored sing-box process is alive, the start
    endpoint answers status 400 with "sing-box is already running" and
    changes nothing. *)
Theorem start_service_running_400 (env : Sup.StartEnv) (w : Sup.World) (p : nat) :
  Sup.handle w = Some p -> p ∈ Sup.running w ->
  Sup.start_service env w = (Sup.mkResponse 400 false "sing-box is already running", w).
Proof.
  intros Hh Hp. unfold Sup.start_service. rewrite Hh. unfold Sup.alive.
  rewrite bool_decide_true by exact Hp. reflexivity.
Qed.

Lemma start_service_running_400_witness :
  Sup.handle Samples.running_world = Some 7 /\ 7 ∈ Sup.running Samples.running_world /\
  Sup.start_service Samples.ok_env Samples.running_world =
    (Sup.mkResponse 400 false "sing-box is already running", Samples.running_world).
Proof.
  split; [reflexivity|]. split; [simpl; set_solver|].
  apply (start_service_running_400 Samples.ok_env Samples.running_world 7);
    [reflexivity|simpl; set_solver].
Defined.

Module VersionFacts.

Import Version.

Lemma parse_u32_lexeme (x : string) (n : N) : parse_u32 x = Some n <-> u32_lexeme x n.
Proof.
  split.
  - unfold parse_u32. destruct x as [|c r]; [discriminate|].
    destruct (Ascii.eqb_spec c "+"%char) as [->|Hc].
    + destruct r as [|c' r']; [discriminate|].
      destruct (digits_value 0 (String c' r')) as [m|] eqn:E; [|discriminate].
      destruct (N.leb_spec m u32_max) as [Hle|]; [|discriminate].
      intros H. injection H as <-.
      exists (String c' r'). split; [right; reflexivity|].
      split; [discriminate|]. split; [exact E|exact Hle].
    + destruct (digits_value 0 (String c r)) as [m|] eqn:E; [|discriminate].
      destruct (N.leb_spec m u32_max) as [Hle|]; [|discriminate].
      intros H. injection H as <-.
      exists (String c r). split; [left; reflexivity|].
      split; [discriminate|]. split; [exact E|exact Hle].
  - intros [ds [[-> | ->] [Hne [Hv Hle]]]].
    + destruct ds as [|c r]; [contradiction|].
      unfold parse_u32. destruct (Ascii.eqb_spec c "+"%char) as [->|Hc].
      * discriminate Hv.
      * rewrite Hv. apply N.leb_le in Hle. rewrite Hle. reflexivity.
    + unfold parse_u32. simpl.
      destruct ds as [|c r]; [contradiction|].
      rewrite Hv. apply N.leb_le in Hle. rewrite Hle. reflexivity.
Qed.

Lemma parse_version_shape (s : string) (t : N * N * N) :
  parse_version s = Some t <-> version_shape s t.
Proof.
  destruct t as [[a b] c]. unfold parse_version, version_shape.
  split.
  - destruct (split_dot (strip_prefix_v s)) as [|x [|y [|z [|w ws]]]];
      try discriminate.
    destruct (parse_u32 x) as [x'|] eqn:Ex; [|discriminate].
    destruct (parse_u32 y) as [y'|] eqn:Ey; [|discriminate].
    destruct (parse_u32 z) as [z'|] eqn:Ez; [|discriminate].
    intros H. injection H as <- <- <-.
    exists x, y, z. split; [reflexivity|].
    split; [apply parse_u32_lexeme; exact Ex|].
    split; [apply parse_u32_lexeme; exact Ey|apply parse_u32_lexeme; exact Ez].
  - intros [x [y [z [Hs [Hx [Hy Hz]]]]]]. rewrite Hs.
    apply parse_u32_lexeme in Hx, Hy, Hz. rewrite Hx, Hy, Hz. reflexivity.
Qed.

End VersionFacts.

(** C10 (as stated): a release tag with a ['+'] sign, which is not three
    runs of digits, still counts as newer: [is_newer_version "v0.1.0"
    "v+1.0.0"] is true. *)
Lemma is_newer_version_accepts_plus_sign :
  Version.is_newer_version "v0.1.0" "v+1.0.0" = true /\
  Version.spec_version_wellformed "v+1.0.0" = false /\
  ~ (forall current latest,
       Version.is_newer_version current latest = true ->
       Version.spec_version_wellformed current = true /\
       Version.spec_version_wellformed latest = true).
Proof.
  split; [reflexivity|]. split; [reflexivity|].
  intros H. destruct (H "v0.1.0" "v+1.0.0" eq_refl) as [_ Hl]. discriminate Hl.
Qed.

(** C10 (amended): [is_newer_version current latest] is true exactly when
    both strings, after dropping one leading ['v'], split on ['.'] into
    exactly three components, each an optional ['+'] followed by one or more
    ASCII digits with a value that fits in a u32, and latest's
    (major, minor, patch) is lexicographically greater than current's; any
    other pair gives false. *)
Theorem is_newer_version_spec (current latest : string) :
  Version.is_newer_version current latest = true <->
  exists c1 c2 c3 l1 l2 l3,
    Version.version_shape current (c1, c2, c3) /\
    Version.version_shape latest (l1, l2, l3) /\
    Version.tuple_gt (l1, l2, l3) (c1, c2, c3) = true.
Proof.
  unfold Version.is_newer_version. split.
  - destruct (Version.parse_version current) as [[[c1 c2] c3]|] eqn:Ec; [|discriminate].
    destruct (Version.parse_version latest) as [[[l1 l2] l3]|] eqn:El; [|discriminate].
    intros H. exists c1, c2, c3, l1, l2, l3.
    split; [apply VersionFacts.parse_version_shape; exact Ec|].
    split; [apply VersionFacts.parse_version_shape; exact El|exact H].
  - intros [c1 [c2 [c3 [l1 [l2 [l3 [Hc [Hl Hg]]]]]]]].
    apply VersionFacts.parse_version_shape in Hc, Hl. rewrite Hc, Hl. exact Hg.
Qed.

(** C9: when the downloaded candidate has been written and made executable
    but running it fails, [upgrade] answers an error, removes the candidate,
    and leaves every other file (the running executable and any [.bak]
    file included) as it was; sing-box is not stopped and no re-exec is
    scheduled. *)
Theorem upgrade_verify_failure_keeps_exe (env : Upgrade.UpEnv) (fs : Gen.Fs) (w : Sup.World)
    (rel : Upgrade.Release) (asset url bytes : string) :
  Upgrade.release env = inr rel ->
  Version.is_newer_version ("v" ++ Upgrade.pkg_version env) (Upgrade.tag_name rel) = true ->
  Upgrade.arch_asset env = Some asset ->
  Upgrade.find_asset asset rel = Some url ->
  Upgrade.download env url = inr bytes ->
  Upgrade.tmp_write_cut env = None ->
  Upgrade.tmp_chmod_ok env = true ->
  Upgrade.verify_ok env = false ->
  let out := Upgrade.upgrade env fs w in
  Upgrade.up_success out = false /\
  Upgrade.up_message out = "New binary verification failed" /\
  Upgrade.up_fs out = delete Upgrade.temp_path fs /\
  Upgrade.up_world out = w /\
  Upgrade.up_exec_scheduled out = false /\
  (forall path, path <> Upgrade.temp_path -> Upgrade.up_fs out !! path = fs !! path).
Proof.
  intros Hrel Hnew Harch Hfind Hdl Hcut Hchmod Hver out.
  assert (Hout : out = Upgrade.mkUpOut false "New binary verification failed"
                         (delete Upgrade.temp_path fs) w false).
  { unfold out, Upgrade.upgrade. rewrite Hrel, Hnew, Harch, Hfind, Hdl.
    unfold Gen.fs_write. rewrite Hcut, Hchmod, Hver. simpl.
    rewrite delete_insert_eq. reflexivity. }
  rewrite Hout. simpl.
  split; [reflexivity|]. split; [reflexivity|]. split; [reflexivity|].
  split; [reflexivity|]. split; [reflexivity|].
  intros path Hp. apply lookup_delete_ne. congruence.
Qed.


Lemma upgrade_verify_failure_keeps_exe_witness :
  Upgrade.up_fs (Upgrade.upgrade Samples.failing_verify_env Samples.exe_fs Sup.initial_world)
    !! "/usr/bin/miao" = Some "OLD" /\
  Upgrade.up_fs (Upgrade.upgrade Samples.failing_verify_env Samples.exe_fs Sup.initial_world)
    !! "/usr/bin/miao.bak" = None.
Proof.
  pose proof (upgrade_verify_failure_keeps_exe Samples.failing_verify_env
                Samples.exe_fs Sup.initial_world
                (Upgrade.mkRelease "v0.7.0" [("miao-rust-linux-amd64", "https://dl.example/miao")])
                "miao-rust-linux-amd64" "https://dl.example/miao" "NEW"
                eq_refl ltac:(vm_compute; reflexivity) eq_refl ltac:(vm_compute; reflexivity)
                eq_refl eq_refl eq_refl eq_refl) as H.
  destruct H as [_ [_ [_ [_ [_ H]]]]].
  split.
  - rewrite (H "/usr/bin/miao" ltac:(discriminate)). reflexivity.
  - rewrite (H "/usr/bin/miao.bak" ltac:(discriminate)). reflexivity.
Defined.

(* ========================================================================= *)
(** * Further properties of the handlers and helpers *)
(* ========================================================================= *)

Module ApiFacts.

Import Gen.

Lemma fetch_all_outputs (genv : GenEnv) (urls : list string) nms obs st :
  fst (fetch_all genv urls nms obs st) =
    ((nms ++ concat (map (fun u => fst (Api.sub_output_of genv u)) urls))%list,
     (obs ++ concat (map (fun u => snd (Api.sub_output_of genv u)) urls))%list).
Proof.
  revert nms obs st.
  induction urls as [|u urls IH]; intros nms obs st; simpl.
  - rewrite !app_nil_r. reflexivity.
  - unfold Api.sub_output_of at 1 3.
    destruct (Sub.fetch_sub (fetch_response genv u)) as [e|[nn oo]]; rewrite IH; simpl;
      rewrite ?app_assoc; reflexivity.
Qed.

Lemma fetch_all_status (genv : GenEnv) (urls : list string) nms obs st (u : string) :
  snd (fetch_all genv urls nms obs st) !! u =
    if bool_decide (u ∈ urls) then Some (Api.sub_status_of genv u) else st !! u.
Proof.
  revert nms obs st.
  induction urls as [|v urls IH]; intros nms obs st; cbn [fetch_all].
  - rewrite bool_decide_false by set_solver. reflexivity.
  - assert (Hstep : forall st',
      snd (fetch_all genv urls nms obs st') !! u = snd (fetch_all genv urls [] [] st') !! u)
      by (intros; rewrite !IH; reflexivity).
    destruct (Sub.fetch_sub (fetch_response genv v)) as [e|[nn oo]] eqn:Hf; rewrite IH;
    destruct (String.eq_dec u v) as [->|Hne].
    + rewrite lookup_insert_eq. unfold Api.sub_status_of. rewrite Hf.
      case_bool_decide; case_bool_decide; set_solver.
    + rewrite lookup_insert_ne by congruence.
      case_bool_decide; case_bool_decide; set_solver.
    + rewrite lookup_insert_eq. unfold Api.sub_status_of. rewrite Hf.
      case_bool_decide; case_bool_decide; set_solver.
    + rewrite lookup_insert_ne by congruence.
      case_bool_decide; case_bool_decide; set_solver.
Qed.

Lemma poll_exit_some (fuel i j : nat) :
  Sup.poll_exit fuel i (Some j) = (Nat.ltb 0 fuel && Nat.ltb j (i + fuel))%bool.
Proof.
  revert i. induction fuel as [|f IH]; intros i; simpl; [reflexivity|].
  rewrite IH. destruct (Nat.leb_spec j i), (Nat.ltb_spec j (i + S f)),
    (Nat.ltb_spec 0 f), (Nat.ltb_spec j (S i + f)); simpl; try reflexivity; lia.
Qed.

Lemma poll_exit_none (fuel i : nat) : Sup.poll_exit fuel i None = false.
Proof. revert i. induction fuel; intros i; simpl; auto. Qed.

Lemma gen_config_status (genv : GenEnv) (cfg : Config) st fs :
  gen_status (gen_config genv cfg st fs) =
    snd (fetch_all genv (subs cfg) [] [] (filter (fun kv => kv.1 ∈ subs cfg) st)).
Proof.
  unfold gen_config.
  destruct (fetch_all genv (subs cfg) [] [] _) as [[fn fo] st1].
  destruct (Nat.eqb _ 0); [reflexivity|].
  destruct (fs_write _ _ _ _); reflexivity.
Qed.

Lemma regenerate_config (env : Api.ApiEnv) (c : Config) (s : Api.Srv) :
  Api.config (snd (Api.regenerate_and_restart env c s)) = Api.config s.
Proof.
  unfold Api.regenerate_and_restart.
  destruct (gen_result _); [reflexivity|].
  destruct (Sup.start_sing_internal _ _) as [[e|uu] w2]; reflexivity.
Qed.

Lemma persist_config (env : Api.ApiEnv) (c : Config) (s : Api.Srv) msg :
  Api.config (snd (Api.persist_and_restart env c s msg)) = c.
Proof.
  unfold Api.persist_and_restart, Api.save_config.
  destruct (fs_write _ _ _ _) as [ok f]. destruct ok; simpl; [|reflexivity].
  pose proof (regenerate_config env c (Api.set_files f (Api.set_config c s))) as E.
  destruct (Api.regenerate_and_restart _ _ _) as [[m|uu] s2]; exact E.
Qed.

Lemma filter_existsb_false {A} (f : A -> bool) (l : list A) :
  existsb f l = false -> List.filter (fun x => negb (f x)) l = l.
Proof.
  induction l as [|a l IH]; simpl; [reflexivity|].
  destruct (f a); simpl; [discriminate|]. intros H. f_equal. exact (IH H).
Qed.

Lemma existsb_eqb_false (x : string) (l : list string) :
  existsb (String.eqb x) l = false <-> ~ In x l.
Proof.
  split.
  - intros H Hin. assert (existsb (String.eqb x) l = true) as E
      by (apply existsb_exists; exists x; split; [exact Hin|apply String.eqb_refl]).
    congruence.
  - intros H. destruct (existsb (String.eqb x) l) eqn:E; [|reflexivity].
    apply existsb_exists in E as [y [Hy Hxy]]. apply String.eqb_eq in Hxy. subst. contradiction.
Qed.

Lemma filter_neq_absent (x : string) (l : list string) :
  ~ In x l -> List.filter (fun u => negb (String.eqb u x)) l = l.
Proof.
  induction l as [|a l IH]; simpl; [reflexivity|]. intros H.
  destruct (String.eqb_spec a x) as [->|Hne]; [tauto|]. simpl. f_equal. apply IH. tauto.
Qed.

Lemma NoDup_snoc {A} (l : list A) (x : A) : NoDup l -> ~ In x l -> NoDup (l ++ [x]).
Proof.
  intros Hn Hx. apply NoDup_app. split; [exact Hn|]. split.
  - intros y Hy Hy'. apply list_elem_of_singleton in Hy'. subst.
    apply Hx, list_elem_of_In, Hy.
  - apply NoDup_singleton.
Qed.

Lemma build_node_tag (req : Api.NodeRequest) :
  get "tag" (Api.build_node req) = Some (JStr (Api.req_tag req)).
Proof.
  unfold Api.build_node.
  destruct (String.eqb _ "anytls"); [reflexivity|].
  destruct (String.eqb _ "ss"); reflexivity.
Qed.

Lemma node_info_build (req : Api.NodeRequest) :
  (0 <= Api.req_server_port req < 65536)%Z ->
  Api.node_info (Api.build_node req) =
    Api.mkNodeInfo (Api.req_tag req) (Api.req_server req) (Api.req_server_port req)
      (if Api.opt_str_eqb (Api.node_type req) (Some "ss") then None else Api.req_sni req).
Proof.
  intros Hp.
  assert (Hu : Api.as_u64 (JNum (Api.req_server_port req)) = Some (Api.req_server_port req)).
  { unfold Api.as_u64. destruct Hp as [H0 H1].
    assert (H2 : (Api.req_server_port req < 2 ^ 64)%Z)
      by (eapply Z.lt_trans; [exact H1|reflexivity]).
    rewrite (proj2 (Z.leb_le _ _) H0), (proj2 (Z.ltb_lt _ _) H2). reflexivity. }
  assert (Hm : Z.modulo (Api.req_server_port req) 65536 = Api.req_server_port req)
    by (apply Z.mod_small; lia).
  destruct req as [ty tag srv prt pw sni cph]; simpl in *.
  unfold Api.build_node, Api.node_info; simpl.
  destruct ty as [t|]; simpl.
  - destruct (String.eqb_spec t "anytls") as [->|Ha]; simpl.
    + rewrite Hu, Hm. destruct sni; reflexivity.
    + destruct (String.eqb_spec t "ss") as [->|Hs]; simpl.
      * rewrite Hu, Hm. reflexivity.
      * rewrite Hu, Hm. destruct sni; reflexivity.
  - rewrite Hu, Hm. destruct sni; reflexivity.
Qed.

Lemma string_append_neq (s t : string) : t <> EmptyString -> s <> (s ++ t)%string.
Proof.
  intros Ht. induction s as [|c s IH]; simpl.
  - intros E. apply Ht. symmetry. exact E.
  - intros E. injection E as E. exact (IH E).
Qed.

Lemma tuple_gt_irrefl (t : N * N * N) : Version.tuple_gt t t = false.
Proof.
  destruct t as [[a b] c]. unfold Version.tuple_gt.
  rewrite !N.ltb_irrefl, !N.eqb_refl. reflexivity.
Qed.

Lemma tuple_gt_spec (l c : N * N * N) :
  Version.tuple_gt l c = true <->
  let '(l1, l2, l3) := l in let '(c1, c2, c3) := c in
  (c1 < l1 \/ (c1 = l1 /\ (c2 < l2 \/ (c2 = l2 /\ c3 < l3))))%N.
Proof.
  destruct l as [[l1 l2] l3], c as [[c1 c2] c3]. unfold Version.tuple_gt.
  rewrite orb_true_iff, andb_true_iff, orb_true_iff, andb_true_iff,
    N.ltb_lt, N.eqb_eq, N.ltb_lt, N.eqb_eq, N.ltb_lt. reflexivity.
Qed.

Lemma fs_copy_some (ok : bool) (src dst : string) (fs : Fs) (c : string) :
  fs !! src = Some c -> Upgrade.fs_copy ok src dst fs = if ok then Some (<[dst := c]> fs) else None.
Proof. intros H. unfold Upgrade.fs_copy. rewrite H. reflexivity. Qed.

Lemma fs_remove_some (ok : bool) (p : string) (fs : Fs) (c : string) :
  fs !! p = Some c -> Upgrade.fs_remove ok p fs = if ok then Some (delete p fs) else None.
Proof. intros H. unfold Upgrade.fs_remove. rewrite H. reflexivity. Qed.

End ApiFacts.

(** The subscription status map after [regenerate_and_restart] (and so
    after every handler that calls it): [get_subs] reports, for each
    configured URL, the outcome of that URL's fetch in this run (success
    with the node count, "No nodes found" for an empty feed, or the fetch
    error), and the map keeps no entry for a URL that is no longer
    configured. *)
Theorem regenerate_sub_status (env : Api.ApiEnv) (c : Gen.Config) (s : Api.Srv) :
  Api.config s = c ->
  Api.get_subs (snd (Api.regenerate_and_restart env c s)) =
    map (Api.sub_status_of (Api.gen env)) (Gen.subs c) /\
  (forall u, u ∉ Gen.subs c -> Api.sub_status (snd (Api.regenerate_and_restart env c s)) !! u = None).
Proof.
  intros Hc.
  assert (Hst : Api.sub_status (snd (Api.regenerate_and_restart env c s)) =
                Gen.gen_status (Gen.gen_config (Api.gen env) c (Api.sub_status s) (Api.files s))
          /\ Api.config (snd (Api.regenerate_and_restart env c s)) = c).
  { unfold Api.regenerate_and_restart.
    destruct (Gen.gen_result _); [split; simpl; auto|].
    destruct (Sup.start_sing_internal _ _) as [[e|uu] w2]; split; simpl; auto. }
  destruct Hst as [Hst Hcfg].
  assert (Hlook : forall u, Gen.gen_status (Gen.gen_config (Api.gen env) c (Api.sub_status s) (Api.files s)) !! u =
            if bool_decide (u ∈ Gen.subs c) then Some (Api.sub_status_of (Api.gen env) u) else None).
  { intros u. rewrite ApiFacts.gen_config_status, ApiFacts.fetch_all_status.
    case_bool_decide as Hin; [reflexivity|].
    apply map_lookup_filter_None. right. intros x _. simpl. exact Hin. }
  split.
  - unfold Api.get_subs. rewrite Hcfg, Hst.
    apply map_ext_in. intros u Hu. rewrite Hlook.
    rewrite bool_decide_true by (apply list_elem_of_In; exact Hu). reflexivity.
  - intros u Hu. rewrite Hst, Hlook. rewrite bool_decide_false by exact Hu. reflexivity.
Qed.

Lemma regenerate_sub_status_witness :
  Api.get_subs (snd (Api.regenerate_and_restart (ApiSamples.sample_env None Samples.ok_env)
                       (Api.config ApiSamples.feed_srv) ApiSamples.feed_srv)) =
    [Gen.mkSubStatus "https://a.example/sub" true 1 None].
Proof.
  destruct (regenerate_sub_status (ApiSamples.sample_env None Samples.ok_env)
              (Api.config ApiSamples.feed_srv) ApiSamples.feed_srv eq_refl) as [H _].
  rewrite H. vm_compute. reflexivity.
Defined.

(** Each subscription contributes its own nodes independently: the names
    and outbounds [gen_config] collects from subscriptions are the
    concatenation, in the order of [subs], of what each feed yields on its
    own, and a feed whose fetch fails contributes nothing without affecting
    the others. *)
Theorem fetched_per_subscription (genv : Gen.GenEnv) (cfg : Gen.Config) :
  Gen.fetched_names genv cfg = concat (map (fun u => fst (Api.sub_output_of genv u)) (Gen.subs cfg)) /\
  Gen.fetched_outbounds genv cfg = concat (map (fun u => snd (Api.sub_output_of genv u)) (Gen.subs cfg)) /\
  (forall u e, Sub.fetch_sub (Gen.fetch_response genv u) = inl e -> Api.sub_output_of genv u = ([], [])).
Proof.
  unfold Gen.fetched_names, Gen.fetched_outbounds.
  rewrite ApiFacts.fetch_all_outputs. simpl.
  split; [reflexivity|]. split; [reflexivity|].
  intros u e He. unfold Api.sub_output_of. rewrite He. reflexivity.
Qed.

(** When config generation fails (no node available, or [config.json]
    could not be written), [regenerate_and_restart] answers "Failed to
    regenerate config" and leaves the running sing-box alone: it is neither
    stopped nor restarted, and the in-memory config is unchanged. *)
Theorem regenerate_failure_keeps_engine (env : Api.ApiEnv) (c : Gen.Config) (s : Api.Srv) e :
  Gen.gen_result (Gen.gen_config (Api.gen env) c (Api.sub_status s) (Api.files s)) = inl e ->
  fst (Api.regenerate_and_restart env c s) = inl "Failed to regenerate config" /\
  Api.world (snd (Api.regenerate_and_restart env c s)) = Api.world s /\
  Api.config (snd (Api.regenerate_and_restart env c s)) = Api.config s.
Proof.
  intros He. unfold Api.regenerate_and_restart. rewrite He. simpl. auto.
Qed.

Lemma regenerate_failure_keeps_engine_witness :
  fst (Api.regenerate_and_restart (ApiSamples.sample_env None Samples.ok_env)
         (Api.config ApiSamples.running_srv) ApiSamples.running_srv) = inl "Failed to regenerate config" /\
  Api.world (snd (Api.regenerate_and_restart (ApiSamples.sample_env None Samples.ok_env)
         (Api.config ApiSamples.running_srv) ApiSamples.running_srv)) = Samples.running_world.
Proof.
  destruct (regenerate_failure_keeps_engine (ApiSamples.sample_env None Samples.ok_env)
              (Api.config ApiSamples.running_srv) ApiSamples.running_srv Gen.NoNodesAvailable
              ltac:(vm_compute; reflexivity)) as [H1 [H2 _]].
  split; [exact H1|exact H2].
Defined.

(** [regenerate_and_restart] keeps the single-instance invariant in every
    outcome, and when it reports success exactly one sing-box process is
    alive and it is the stored one: the old instance was stopped before the
    new one was spawned. *)
Theorem regenerate_ok_one_engine (env : Api.ApiEnv) (c : Gen.Config) (s : Api.Srv) :
  Sup.single_instance (Api.world s) ->
  Sup.single_instance (Api.world (snd (Api.regenerate_and_restart env c s))) /\
  (fst (Api.regenerate_and_restart env c s) = inr tt ->
   exists p, Sup.handle (Api.world (snd (Api.regenerate_and_restart env c s))) = Some p /\
             Sup.running (Api.world (snd (Api.regenerate_and_restart env c s))) = {[p]}).
Proof.
  intros Hs. unfold Api.regenerate_and_restart.
  destruct (Gen.gen_result _) as [e|uu]; simpl.
  - split; [exact Hs|discriminate].
  - set (w1 := Sup.stop_sing_internal (Api.stop_env env) (Api.world s)).
    assert (H1 : Sup.single_instance w1) by apply SupFacts.stop_single_instance, Hs.
    pose proof (SupFacts.start_single_instance (Api.start_env env) w1 H1) as H2.
    pose proof (SupFacts.start_ok_stored (Api.start_env env) w1 H1) as H3.
    destruct (Sup.start_sing_internal (Api.start_env env) w1) as [[e|uu'] w2] eqn:E;
      simpl in *.
    + split; [exact H2|discriminate].
    + split; [exact H2|]. intros _. destruct uu'. apply H3. reflexivity.
Qed.

Lemma regenerate_ok_one_engine_witness :
  fst (Api.regenerate_and_restart (ApiSamples.sample_env None Samples.ok_env)
         (Api.config ApiSamples.manual_srv) ApiSamples.manual_srv) = inr tt /\
  exists p, Sup.handle (Api.world (snd (Api.regenerate_and_restart
                 (ApiSamples.sample_env None Samples.ok_env)
                 (Api.config ApiSamples.manual_srv) ApiSamples.manual_srv))) = Some p /\
            Sup.running (Api.world (snd (Api.regenerate_and_restart
                 (ApiSamples.sample_env None Samples.ok_env)
                 (Api.config ApiSamples.manual_srv) ApiSamples.manual_srv))) = {[p]}.
Proof.
  assert (Hs : Sup.single_instance (Api.world ApiSamples.manual_srv))
    by (intros q Hq; simpl in Hq; set_solver).
  destruct (regenerate_ok_one_engine (ApiSamples.sample_env None Samples.ok_env)
              (Api.config ApiSamples.manual_srv) ApiSamples.manual_srv Hs) as [_ H].
  assert (E : fst (Api.regenerate_and_restart (ApiSamples.sample_env None Samples.ok_env)
         (Api.config ApiSamples.manual_srv) ApiSamples.manual_srv) = inr tt)
    by (vm_compute; reflexivity).
  split; [exact E|exact (H E)].
Defined.

(** [add_sub] never introduces a duplicate subscription URL: if the
    configured URLs are pairwise distinct before the call, they still are
    after it, whatever the outcome (400, a failed save, a failed restart or
    success). *)
Theorem add_sub_keeps_nodup (env : Api.ApiEnv) (url : string) (s : Api.Srv) :
  NoDup (Gen.subs (Api.config s)) ->
  NoDup (Gen.subs (Api.config (snd (Api.add_sub env url s)))).
Proof.
  intros Hn. unfold Api.add_sub.
  destruct (existsb (String.eqb url) (Gen.subs (Api.config s))) eqn:E; [exact Hn|].
  rewrite ApiFacts.persist_config. simpl.
  apply ApiFacts.NoDup_snoc; [exact Hn|]. apply ApiFacts.existsb_eqb_false, E.
Qed.

Lemma add_sub_keeps_nodup_witness :
  Gen.subs (Api.config (snd (Api.add_sub (ApiSamples.sample_env None Samples.ok_env)
                               "https://a.example/sub" ApiSamples.feed_srv))) =
    ["https://a.example/sub"] /\
  NoDup (Gen.subs (Api.config (snd (Api.add_sub (ApiSamples.sample_env None Samples.ok_env)
                               "https://a.example/sub" ApiSamples.feed_srv)))).
Proof.
  split; [vm_compute; reflexivity|].
  apply add_sub_keeps_nodup. simpl. apply NoDup_singleton.
Defined.

(** Adding a subscription URL that is not yet configured and then deleting
    it gives back the original configuration, whatever the outcomes of the
    saves and restarts in between: [add_sub] appends the URL and
    [delete_sub] removes exactly that URL. *)
Theorem add_then_delete_sub (env1 env2 : Api.ApiEnv) (url : string) (s : Api.Srv) :
  ~ In url (Gen.subs (Api.config s)) ->
  Api.config (snd (Api.delete_sub env2 url (snd (Api.add_sub env1 url s)))) = Api.config s /\
  Sup.status (fst (Api.delete_sub env2 url (snd (Api.add_sub env1 url s)))) <> 404%N.
Proof.
  intros Hn.
  assert (Hadd : Api.config (snd (Api.add_sub env1 url s)) =
                 Gen.mkConfig (Gen.port (Api.config s)) (Gen.subs (Api.config s) ++ [url])
                   (Gen.nodes (Api.config s))).
  { unfold Api.add_sub. rewrite (proj2 (ApiFacts.existsb_eqb_false _ _) Hn).
    apply ApiFacts.persist_config. }
  assert (Hkept : List.filter (fun u => negb (String.eqb u url))
                    (Gen.subs (Api.config s) ++ [url]) = Gen.subs (Api.config s)).
  { rewrite List.filter_app, (ApiFacts.filter_neq_absent url _ Hn). simpl.
    rewrite String.eqb_refl. apply app_nil_r. }
  unfold Api.delete_sub. rewrite Hadd. simpl. rewrite Hkept.
  rewrite length_app. simpl.
  destruct (Nat.eqb_spec (length (Gen.subs (Api.config s)))
              (length (Gen.subs (Api.config s)) + 1)) as [E|_]; [lia|].
  split.
  - rewrite ApiFacts.persist_config. destruct (Api.config s); reflexivity.
  - unfold Api.persist_and_restart, Api.save_config.
    destruct (Gen.fs_write _ _ _ _) as [ok f]. destruct ok; simpl; [|discriminate].
    destruct (Api.regenerate_and_restart _ _ _) as [[m|uu] s2]; discriminate.
Qed.

Lemma add_then_delete_sub_witness :
  Api.config (snd (Api.delete_sub (ApiSamples.sample_env None Samples.ok_env) "https://b.example/sub"
     (snd (Api.add_sub (ApiSamples.sample_env (Some 3) Samples.ok_env) "https://b.example/sub"
             ApiSamples.feed_srv)))) = Api.config ApiSamples.feed_srv.
Proof.
  apply (add_then_delete_sub (ApiSamples.sample_env (Some 3) Samples.ok_env)
           (ApiSamples.sample_env None Samples.ok_env) "https://b.example/sub" ApiSamples.feed_srv).
  simpl. intros [H|[]]. discriminate H.
Defined.

(** Deleting a subscription URL that is not configured answers 404
    "Subscription not found" and changes nothing: no save, no regeneration,
    no restart. *)
Theorem delete_sub_absent (env : Api.ApiEnv) (url : string) (s : Api.Srv) :
  ~ In url (Gen.subs (Api.config s)) ->
  Api.delete_sub env url s = (Sup.mkResponse 404 false "Subscription not found", s).
Proof.
  intros Hn. unfold Api.delete_sub. rewrite (ApiFacts.filter_neq_absent url _ Hn).
  rewrite Nat.eqb_refl. destruct s as [[p su no] f st w]. reflexivity.
Qed.

Lemma delete_sub_absent_witness :
  Api.delete_sub (ApiSamples.sample_env None Samples.ok_env) "https://b.example/sub" ApiSamples.feed_srv =
    (Sup.mkResponse 404 false "Subscription not found", ApiSamples.feed_srv).
Proof.
  apply delete_sub_absent. simpl. intros [H|[]]. discriminate H.
Defined.



(** [add_node] followed by [get_nodes]: when the tag is new, the serialised
    node parses back and the port is a valid u16, the listing gains exactly
    one entry at the end, with the requested tag, server and port; its SNI is
    the requested one for hysteria2 and anytls (and for an unknown type,
    which is built as hysteria2) but is always dropped for ss. This holds
    for every outcome of the save and of the restart, since the in-memory
    config is updated first. *)
Theorem add_node_listed (env : Api.ApiEnv) (req : Api.NodeRequest) (s : Api.Srv) :
  existsb (fun n => Api.opt_str_eqb (Api.stored_tag env n) (Some (Api.req_tag req)))
    (Gen.nodes (Api.config s)) = false ->
  Gen.parse_node (Api.gen env) (Api.node_to_string env (Api.build_node req)) =
    Some (Api.build_node req) ->
  (0 <= Api.req_server_port req < 65536)%Z ->
  Api.get_nodes env (snd (Api.add_node env req s)) =
    (Api.get_nodes env s ++
     [Api.mkNodeInfo (Api.req_tag req) (Api.req_server req) (Api.req_server_port req)
        (if Api.opt_str_eqb (Api.node_type req) (Some "ss") then None else Api.req_sni req)])%list.
Proof.
  intros Hnew Hparse Hport.
  unfold Api.add_node. rewrite Hnew.
  unfold Api.get_nodes. rewrite ApiFacts.persist_config. simpl.
  rewrite omap_app. simpl. rewrite Hparse. simpl.
  rewrite (ApiFacts.node_info_build req Hport). reflexivity.
Qed.

Lemma add_node_listed_witness :
  Api.get_nodes (ApiSamples.sample_env None Samples.ok_env)
    (snd (Api.add_node (ApiSamples.sample_env None Samples.ok_env) ApiSamples.sample_req
            ApiSamples.manual_srv)) =
    [Api.mkNodeInfo "m" EmptyString 0 None; Api.mkNodeInfo "jp" "jp.example" 8388 None].
Proof.
  rewrite (add_node_listed (ApiSamples.sample_env None Samples.ok_env) ApiSamples.sample_req
             ApiSamples.manual_srv ltac:(vm_compute; reflexivity) ltac:(vm_compute; reflexivity)
             ltac:(simpl; lia)).
  vm_compute. reflexivity.
Defined.

(** [add_node] with a tag already carried by a stored node that parses
    answers 400 "Node with this tag already exists" and changes nothing. *)
Theorem add_node_duplicate_tag (env : Api.ApiEnv) (req : Api.NodeRequest) (s : Api.Srv) (n : string) :
  In n (Gen.nodes (Api.config s)) ->
  Api.stored_tag env n = Some (Api.req_tag req) ->
  Api.add_node env req s = (Sup.mkResponse 400 false "Node with this tag already exists", s).
Proof.
  intros Hin Htag. unfold Api.add_node.
  replace (existsb _ _) with true; [reflexivity|].
  symmetry. apply existsb_exists. exists n. split; [exact Hin|].
  rewrite Htag. apply String.eqb_refl.
Qed.

Lemma add_node_duplicate_tag_witness :
  Api.add_node (ApiSamples.sample_env None Samples.ok_env)
    (Api.mkNodeRequest None "m" "h.example" 443 "pw" None None) ApiSamples.manual_srv =
  (Sup.mkResponse 400 false "Node with this tag already exists", ApiSamples.manual_srv).
Proof.
  apply (add_node_duplicate_tag _ _ _ "node-m"); [simpl; left; reflexivity|reflexivity].
Defined.

(** Adding a node with a new tag and then deleting that tag gives back the
    original configuration (the new node is the only one removed), provided
    the stored form of the new node parses back to it. *)
Theorem add_then_delete_node (env1 env2 : Api.ApiEnv) (req : Api.NodeRequest) (s : Api.Srv) :
  Api.gen env2 = Api.gen env1 ->
  existsb (fun n => Api.opt_str_eqb (Api.stored_tag env1 n) (Some (Api.req_tag req)))
    (Gen.nodes (Api.config s)) = false ->
  Gen.parse_node (Api.gen env1) (Api.node_to_string env1 (Api.build_node req)) =
    Some (Api.build_node req) ->
  Api.config (snd (Api.delete_node env2 (Api.req_tag req) (snd (Api.add_node env1 req s)))) =
    Api.config s /\
  Sup.status (fst (Api.delete_node env2 (Api.req_tag req) (snd (Api.add_node env1 req s)))) <> 404%N.
Proof.
  intros Hg Hnew Hparse.
  assert (Hst : forall n, Api.stored_tag env2 n = Api.stored_tag env1 n)
    by (intros n; unfold Api.stored_tag; rewrite Hg; reflexivity).
  assert (Hadd : Api.config (snd (Api.add_node env1 req s)) =
                 Gen.mkConfig (Gen.port (Api.config s)) (Gen.subs (Api.config s))
                   (Gen.nodes (Api.config s) ++ [Api.node_to_string env1 (Api.build_node req)])).
  { unfold Api.add_node. rewrite Hnew. apply ApiFacts.persist_config. }
  assert (Hkept : List.filter (fun n => negb (Api.opt_str_eqb (Api.stored_tag env2 n)
                                                 (Some (Api.req_tag req))))
                    (Gen.nodes (Api.config s) ++ [Api.node_to_string env1 (Api.build_node req)]) =
                  Gen.nodes (Api.config s)).
  { rewrite List.filter_app.
    rewrite (List.filter_ext _ (fun n => negb (Api.opt_str_eqb (Api.stored_tag env1 n)
                                                   (Some (Api.req_tag req)))))
      by (intros n; rewrite Hst; reflexivity).
    rewrite (ApiFacts.filter_existsb_false _ _ Hnew). simpl.
    unfold Api.stored_tag at 1. rewrite Hg, Hparse, ApiFacts.build_node_tag. simpl.
    rewrite String.eqb_refl. apply app_nil_r. }
  unfold Api.delete_node. rewrite Hadd. simpl. rewrite Hkept.
  rewrite length_app. simpl.
  destruct (Nat.eqb_spec (length (Gen.nodes (Api.config s)))
              (length (Gen.nodes (Api.config s)) + 1)) as [E|_]; [lia|].
  split.
  - rewrite ApiFacts.persist_config. destruct (Api.config s); reflexivity.
  - unfold Api.persist_and_restart, Api.save_config.
    destruct (Gen.fs_write _ _ _ _) as [ok f]. destruct ok; simpl; [|discriminate].
    destruct (Api.regenerate_and_restart _ _ _) as [[m|uu] s2]; discriminate.
Qed.

Lemma add_then_delete_node_witness :
  Api.config (snd (Api.delete_node (ApiSamples.sample_env None Samples.ok_env) "jp"
     (snd (Api.add_node (ApiSamples.sample_env None Samples.ok_env) ApiSamples.sample_req
             ApiSamples.manual_srv)))) = Api.config ApiSamples.manual_srv.
Proof.
  apply (add_then_delete_node (ApiSamples.sample_env None Samples.ok_env)
           (ApiSamples.sample_env None Samples.ok_env) ApiSamples.sample_req ApiSamples.manual_srv
           eq_refl ltac:(vm_compute; reflexivity) ltac:(vm_compute; reflexivity)).
Defined.

(** Deleting a tag that no stored node carries answers 404 "Node not found"
    and changes nothing; in particular stored nodes that do not parse are
    kept. *)
Theorem delete_node_absent (env : Api.ApiEnv) (tag : string) (s : Api.Srv) :
  (forall n, In n (Gen.nodes (Api.config s)) -> Api.stored_tag env n <> Some tag) ->
  Api.delete_node env tag s = (Sup.mkResponse 404 false "Node not found", s).
Proof.
  intros Habs. unfold Api.delete_node.
  assert (Hk : List.filter (fun n => negb (Api.opt_str_eqb (Api.stored_tag env n) (Some tag)))
                 (Gen.nodes (Api.config s)) = Gen.nodes (Api.config s)).
  { apply ApiFacts.filter_existsb_false.
    destruct (existsb _ _) eqn:E; [|reflexivity].
    apply existsb_exists in E as [n [Hin Hn]].
    destruct (Api.stored_tag env n) as [t|] eqn:Et; [|discriminate].
    simpl in Hn. apply String.eqb_eq in Hn. subst. exfalso. exact (Habs n Hin Et). }
  rewrite Hk, Nat.eqb_refl. destruct s as [[p su no] f st w]. reflexivity.
Qed.

Lemma delete_node_absent_witness :
  Api.delete_node (ApiSamples.sample_env None Samples.ok_env) "jp"
    (Api.mkSrv (Gen.mkConfig None [] ["node-m"; "not json"]) ∅ ∅ Sup.initial_world) =
  (Sup.mkResponse 404 false "Node not found",
   Api.mkSrv (Gen.mkConfig None [] ["node-m"; "not json"]) ∅ ∅ Sup.initial_world).
Proof.
  apply delete_node_absent. simpl. intros n [<-|[<-|[]]]; vm_compute; discriminate.
Defined.


(** [stop_sing_internal] on a live stored child: it sends SIGTERM, then
    SIGKILL only if the child has not exited within the 30 polls of 100ms
    (its exit observed at poll 0 to 29); the child is gone and the handle
    cleared in both cases. *)
Theorem stop_escalation (senv : Sup.StopEnv) (w : Sup.World) (p : nat) :
  Sup.handle w = Some p -> p ∈ Sup.running w ->
  Sup.trace (Sup.stop_sing_internal senv w) =
    (Sup.trace w ++ [Sup.ESigterm p] ++
     (match Sup.sigterm_exit_poll senv with
      | Some j => if Nat.ltb j 30 then [] else [Sup.ESigkill p]
      | None => [Sup.ESigkill p]
      end) ++ [Sup.EExit p])%list /\
  (p ∉ Sup.running (Sup.stop_sing_internal senv w)) /\
  Sup.handle (Sup.stop_sing_internal senv w) = None.
Proof.
  intros Hh Hp. unfold Sup.stop_sing_internal. rewrite Hh.
  unfold Sup.alive. rewrite bool_decide_true by exact Hp.
  destruct (Sup.sigterm_exit_poll senv) as [j|] eqn:Hj.
  - rewrite ApiFacts.poll_exit_some. simpl.
    destruct (Nat.ltb j 30); simpl; rewrite <- ?app_assoc; simpl;
      (split; [reflexivity|split; [set_solver|reflexivity]]).
  - rewrite ApiFacts.poll_exit_none. simpl. rewrite <- !app_assoc. simpl.
    split; [reflexivity|split; [set_solver|reflexivity]].
Qed.

Lemma stop_escalation_witness :
  Sup.trace (Sup.stop_sing_internal (Sup.mkStopEnv (Some 30)) Samples.running_world) =
    [Sup.ESpawn 7; Sup.ESigterm 7; Sup.ESigkill 7; Sup.EExit 7] /\
  Sup.trace (Sup.stop_sing_internal (Sup.mkStopEnv (Some 29)) Samples.running_world) =
    [Sup.ESpawn 7; Sup.ESigterm 7; Sup.EExit 7].
Proof.
  split.
  - rewrite (proj1 (stop_escalation (Sup.mkStopEnv (Some 30)) Samples.running_world 7
                      eq_refl ltac:(simpl; set_solver))). reflexivity.
  - rewrite (proj1 (stop_escalation (Sup.mkStopEnv (Some 29)) Samples.running_world 7
                      eq_refl ltac:(simpl; set_solver))). reflexivity.
Defined.

(** [restore_last_proxy] only ever selects a proxy that the saved
    [.last_proxy] file names and that is a member of the group's current
    [all] list, and only when the HTTP client could be built. *)
Theorem restore_last_proxy_member (env : Api.LastProxyEnv) (fs : Gen.Fs) (g n : string) :
  Api.restore_last_proxy env fs = Some (g, n) ->
  Api.load_last_proxy env fs = Some (g, n) /\ Api.lp_client_ok env = true /\
  exists info members, Api.group_info env g = Some info /\
    get "all" info = Some (JArr members) /\ In (JStr n) members.
Proof.
  unfold Api.restore_last_proxy.
  destruct (Api.load_last_proxy env fs) as [[g' n']|]; [|discriminate].
  destruct (Api.lp_client_ok env); simpl; [|discriminate].
  destruct (Api.group_info env g') as [info|] eqn:Hi; [|discriminate].
  destruct (get "all" info) as [[| | | | members |]|] eqn:Ha; try discriminate.
  destruct (existsb _ members) eqn:Hm; [|discriminate].
  intros E. injection E as <- <-.
  split; [reflexivity|]. split; [reflexivity|].
  exists info, members. split; [exact Hi|]. split; [exact Ha|].
  apply existsb_exists in Hm as [m [Hin Hm]].
  destruct m; try discriminate. simpl in Hm. apply String.eqb_eq in Hm. subst. exact Hin.
Qed.

Lemma restore_last_proxy_member_witness :
  Api.restore_last_proxy ApiSamples.sample_lp_env (<[Api.last_proxy_path := "proxy/HK"]> ∅) =
    Some ("proxy", "HK") /\
  exists info members, Api.group_info ApiSamples.sample_lp_env "proxy" = Some info /\
    get "all" info = Some (JArr members) /\ In (JStr "HK") members.
Proof.
  assert (E : Api.restore_last_proxy ApiSamples.sample_lp_env
                (<[Api.last_proxy_path := "proxy/HK"]> ∅) = Some ("proxy", "HK"))
    by (vm_compute; reflexivity).
  split; [exact E|].
  exact (proj2 (proj2 (restore_last_proxy_member _ _ _ _ E))).
Defined.

(** [set_last_proxy] followed by [restore_last_proxy]: once the selection
    has been written completely (and its JSON form reads back), a later
    restore selects it again provided the proxy is still a member of the
    group. *)
Theorem set_then_restore_last_proxy (env : Api.LastProxyEnv) (fs : Gen.Fs) (g n : string)
    (info : json) (members : list json) :
  Api.lp_parse env (Api.lp_to_string env (g, n)) = Some (g, n) ->
  Api.lp_write_cut env = None ->
  Api.lp_client_ok env = true ->
  Api.group_info env g = Some info ->
  get "all" info = Some (JArr members) ->
  In (JStr n) members ->
  fst (Api.set_last_proxy env (g, n) fs) = true /\
  Api.restore_last_proxy env (snd (Api.set_last_proxy env (g, n) fs)) = Some (g, n).
Proof.
  intros Hp Hc Hok Hi Ha Hin.
  unfold Api.set_last_proxy, Gen.fs_write. rewrite Hc. simpl.
  split; [reflexivity|].
  unfold Api.restore_last_proxy, Api.load_last_proxy.
  rewrite lookup_insert_eq, Hp, Hok. simpl. rewrite Hi, Ha.
  replace (existsb _ members) with true; [reflexivity|].
  symmetry. apply existsb_exists. exists (JStr n). split; [exact Hin|]. apply String.eqb_refl.
Qed.

Lemma set_then_restore_last_proxy_witness :
  Api.restore_last_proxy ApiSamples.sample_lp_env
    (snd (Api.set_last_proxy ApiSamples.sample_lp_env ("proxy", "HK") ∅)) = Some ("proxy", "HK").
Proof.
  exact (proj2 (set_then_restore_last_proxy ApiSamples.sample_lp_env ∅ "proxy" "HK"
                  (JObj [("all", JArr [JStr "HK"; JStr "JP"])]) [JStr "HK"; JStr "JP"]
                  eq_refl eq_refl eq_refl eq_refl eq_refl ltac:(simpl; left; reflexivity))).
Defined.

(** [is_newer_version] is a strict order on version strings: no version is
    newer than itself, never both of two versions are newer than the other,
    and it is transitive. *)
Theorem is_newer_version_strict_order :
  (forall v, Version.is_newer_version v v = false) /\
  (forall a b, Version.is_newer_version a b = true -> Version.is_newer_version b a = false) /\
  (forall a b c, Version.is_newer_version a b = true -> Version.is_newer_version b c = true ->
                 Version.is_newer_version a c = true).
Proof.
  unfold Version.is_newer_version. split; [|split].
  - intros v. destruct (Version.parse_version v); [apply ApiFacts.tuple_gt_irrefl|reflexivity].
  - intros a b. destruct (Version.parse_version a) as [ta|]; [|discriminate].
    destruct (Version.parse_version b) as [tb|]; [|discriminate].
    intros H. apply ApiFacts.tuple_gt_spec in H.
    destruct (Version.tuple_gt ta tb) eqn:E; [|reflexivity].
    apply ApiFacts.tuple_gt_spec in E.
    destruct ta as [[a1 a2] a3], tb as [[b1 b2] b3]. lia.
  - intros a b c. destruct (Version.parse_version a) as [ta|]; [|discriminate].
    destruct (Version.parse_version b) as [tb|]; [|discriminate].
    destruct (Version.parse_version c) as [tc|]; [|discriminate].
    intros H1 H2. apply ApiFacts.tuple_gt_spec in H1, H2. apply ApiFacts.tuple_gt_spec.
    destruct ta as [[a1 a2] a3], tb as [[b1 b2] b3], tc as [[c1 c2] c3]. lia.
Qed.





(** A complete [upgrade] run: when every step succeeds, the executable
    holds the downloaded bytes, [.bak] holds the previous ones, the temporary
    file is gone and no other file changes; sing-box has been stopped (no
    handle, no process left under the single-instance invariant) and the
    re-exec is scheduled. *)
Theorem upgrade_success_state (env : Upgrade.UpEnv) (fs : Gen.Fs) (w : Sup.World)
    (rel : Upgrade.Release) (asset url bytes exe old : string) :
  Upgrade.release env = inr rel ->
  Version.is_newer_version ("v" ++ Upgrade.pkg_version env) (Upgrade.tag_name rel) = true ->
  Upgrade.arch_asset env = Some asset ->
  Upgrade.find_asset asset rel = Some url ->
  Upgrade.download env url = inr bytes ->
  Upgrade.tmp_write_cut env = None ->
  Upgrade.tmp_chmod_ok env = true ->
  Upgrade.verify_ok env = true ->
  Upgrade.current_exe env = inr exe ->
  fs !! exe = Some old ->
  Upgrade.backup_ok env = true ->
  Upgrade.remove_exe_ok env = true ->
  Upgrade.copy_new_ok env = true ->
  Upgrade.chmod_new_ok env = true ->
  exe <> Upgrade.temp_path ->
  (exe ++ ".bak")%string <> Upgrade.temp_path ->
  Sup.single_instance w ->
  let out := Upgrade.upgrade env fs w in
  Upgrade.up_success out = true /\
  Upgrade.up_message out = "Upgrade complete, restarting..." /\
  Upgrade.up_exec_scheduled out = true /\
  Upgrade.up_fs out !! exe = Some bytes /\
  Upgrade.up_fs out !! (exe ++ ".bak")%string = Some old /\
  Upgrade.up_fs out !! Upgrade.temp_path = None /\
  (forall q, q <> exe -> q <> (exe ++ ".bak")%string -> q <> Upgrade.temp_path ->
     Upgrade.up_fs out !! q = fs !! q) /\
  Sup.handle (Upgrade.up_world out) = None /\
  Sup.running (Upgrade.up_world out) = ∅.
Proof.
  intros Hrel Hnew Harch Hfind Hdl Hcut Hchmod Hver Hexe Hold Hbk Hrm Hcp Hch Ht Hbt Hs out.
  assert (Hbe : exe <> (exe ++ ".bak")%string)
    by (apply ApiFacts.string_append_neq; discriminate).
  set (fs1 := <[Upgrade.temp_path := bytes]> fs).
  set (fs4 := <[exe := bytes]> (delete exe (<[(exe ++ ".bak")%string := old]> fs1))).
  assert (Hout : out = Upgrade.mkUpOut true "Upgrade complete, restarting..."
                         (delete Upgrade.temp_path fs4)
                         (Sup.stop_sing_internal (Upgrade.stop_env env) w) true).
  { unfold out, Upgrade.upgrade. rewrite Hrel, Hnew, Harch, Hfind, Hdl.
    unfold Gen.fs_write. rewrite Hcut, Hchmod, Hver, Hexe.
    cbn [negb].
    rewrite (ApiFacts.fs_copy_some _ _ _ _ old)
      by (unfold fs1; rewrite lookup_insert_ne by congruence; exact Hold).
    rewrite Hbk.
    rewrite (ApiFacts.fs_remove_some _ _ _ old)
      by (unfold fs1; rewrite lookup_insert_ne, lookup_insert_ne by congruence; exact Hold).
    rewrite Hrm.
    rewrite (ApiFacts.fs_copy_some _ _ _ _ bytes)
      by (unfold fs1; rewrite lookup_delete_ne, lookup_insert_ne, lookup_insert_eq
            by congruence; reflexivity).
    rewrite Hcp, Hch. cbn [negb].
    rewrite (ApiFacts.fs_remove_some _ _ _ bytes)
      by (unfold fs4, fs1; rewrite lookup_insert_ne, lookup_delete_ne, lookup_insert_ne,
            lookup_insert_eq by congruence; reflexivity).
    reflexivity. }
  rewrite Hout. cbn [Upgrade.up_success Upgrade.up_message Upgrade.up_exec_scheduled
                     Upgrade.up_fs Upgrade.up_world].
  split; [reflexivity|]. split; [reflexivity|]. split; [reflexivity|].
  unfold fs4, fs1.
  split; [rewrite lookup_delete_ne, lookup_insert_eq by congruence; reflexivity|].
  split; [rewrite lookup_delete_ne, lookup_insert_ne, lookup_delete_ne, lookup_insert_eq
            by congruence; reflexivity|].
  split; [apply lookup_delete_eq|].
  split.
  { intros q Hq1 Hq2 Hq3.
    rewrite lookup_delete_ne, lookup_insert_ne, lookup_delete_ne, lookup_insert_ne,
      lookup_insert_ne by congruence. reflexivity. }
  split; [apply SupFacts.stop_handle|apply SupFacts.stop_running_empty, Hs].
Qed.

Lemma upgrade_success_state_witness :
  Upgrade.up_fs (Upgrade.upgrade ApiSamples.upgrade_ok_env Samples.exe_fs Sup.initial_world)
    !! "/usr/bin/miao" = Some "NEW" /\
  Upgrade.up_fs (Upgrade.upgrade ApiSamples.upgrade_ok_env Samples.exe_fs Sup.initial_world)
    !! "/usr/bin/miao.bak" = Some "OLD".
Proof.
  destruct (upgrade_success_state ApiSamples.upgrade_ok_env Samples.exe_fs Sup.initial_world
              (Upgrade.mkRelease "v0.7.0" [("miao-rust-linux-amd64", "https://dl.example/miao")])
              "miao-rust-linux-amd64" "https://dl.example/miao" "NEW" "/usr/bin/miao" "OLD"
              eq_refl ltac:(vm_compute; reflexivity) eq_refl ltac:(vm_compute; reflexivity)
              eq_refl eq_refl eq_refl eq_refl eq_refl eq_refl eq_refl eq_refl eq_refl eq_refl
              ltac:(discriminate) ltac:(discriminate)
              ltac:(intros q Hq; simpl in Hq; set_solver))
    as [_ [_ [_ [H1 [H2 _]]]]].
  split; [exact H1|exact H2].
Defined.

(** [get_version] and [upgrade] agree on the same release: [upgrade]
    answers "Already up to date" (touching nothing) exactly when
    [get_version] reports no update, and when an update is reported but no
    download URL for this architecture, [upgrade] refuses with "No binary
    found for current architecture" without touching anything. *)
Theorem get_version_agrees_with_upgrade (env : Upgrade.UpEnv) (fs : Gen.Fs) (w : Sup.World)
    (rel : Upgrade.Release) :
  Upgrade.release env = inr rel ->
  let vi := VersionApi.get_version true (Upgrade.pkg_version env) (Upgrade.release env)
              (Upgrade.arch_asset env) in
  (VersionApi.has_update vi = false <->
     Upgrade.up_message (Upgrade.upgrade env fs w) = "Already up to date") /\
  (VersionApi.has_update vi = false ->
     Upgrade.upgrade env fs w = Upgrade.mkUpOut true "Already up to date" fs w false) /\
  (forall a, Upgrade.arch_asset env = Some a -> VersionApi.has_update vi = true ->
     VersionApi.download_url vi = None ->
     Upgrade.upgrade env fs w = Upgrade.fail "No binary found for current architecture" fs w).
Proof.
  intros Hrel vi. unfold vi, VersionApi.get_version. rewrite Hrel.
  cbn [negb VersionApi.has_update VersionApi.download_url].
  unfold Upgrade.upgrade. rewrite Hrel.
  destruct (Version.is_newer_version _ _) eqn:Hn; cbn [negb].
  - split; [split; [discriminate|]|split; [discriminate|]].
    + destruct (Upgrade.arch_asset env) as [a|]; [|discriminate].
      destruct (Upgrade.find_asset a rel) as [url|]; [|discriminate].
      destruct (Upgrade.download env url) as [e|bytes]; [discriminate|].
      destruct (Gen.fs_write _ _ _ _) as [wrote fs1].
      destruct wrote; [|discriminate]. destruct (Upgrade.tmp_chmod_ok env); [|discriminate].
      destruct (Upgrade.verify_ok env); [|discriminate].
      destruct (Upgrade.current_exe env) as [e|exe]; [discriminate|].
      destruct (Upgrade.fs_copy _ _ _ _) as [fs2|]; [|discriminate].
      destruct (Upgrade.fs_remove _ _ _) as [fs3|]; [|discriminate].
      destruct (Upgrade.fs_copy _ _ _ _) as [fs4|]; [|discriminate].
      destruct (Upgrade.chmod_new_ok env); discriminate.
    + intros a Ha _ Hurl. rewrite Ha in Hurl |- *. rewrite Hurl. reflexivity.
  - split; [split; reflexivity|]. split; [reflexivity|]. discriminate.
Qed.

Lemma get_version_agrees_with_upgrade_witness :
  VersionApi.has_update (VersionApi.get_version true
     (Upgrade.pkg_version ApiSamples.up_to_date_env) (Upgrade.release ApiSamples.up_to_date_env)
     (Upgrade.arch_asset ApiSamples.up_to_date_env)) = false /\
  Upgrade.upgrade (ApiSamples.up_to_date_env) Samples.exe_fs Sup.initial_world =
    Upgrade.mkUpOut true "Already up to date" Samples.exe_fs Sup.initial_world false.
Proof.
  split; [vm_compute; reflexivity|].
  destruct (get_version_agrees_with_upgrade ApiSamples.up_to_date_env Samples.exe_fs
              Sup.initial_world
              (Upgrade.mkRelease "v0.7.0" [("miao-rust-linux-amd64", "https://dl.example/miao")])
              eq_refl) as [_ [H _]].
  apply H. vm_compute. reflexivity.
Defined.
